(** * Voice assistant front end: interruption and session coordination

    A shallow embedding of the browser client [script.js] (speech capture,
    voice-activity barge-in, streaming generation channel, playback) and of the
    dispatch prologue of the server's socket handler, followed by the
    properties of the session state machine.

    Conventions of the embedding.
    - The script's module-level [let] variables are the fields of [State],
      under their own names.  Object-valued globals of which the script only
      tests the presence ([recognition], [audio], the VAD nodes) are booleans:
      [true] is "not null".
    - Calls into the browser are recorded, in call order, in the field
      [trace]; a handler appends what it calls.
    - [setTimeout] appends to [timers] a callback with its due time on the
      logical clock [now] (milliseconds).
    - An [async] function is cut at each [await]: the part up to the first
      [await] is one function, each resumption another one that the
      environment triggers with the awaited outcome.
    - What the script draws from the outside ([Math.random] in [uuidv4], the
      classifier's score, the HTTP outcome) arrives as an argument.
    - A string is the sequence of the bytes of its UTF-8 encoding.
    - [console] logging and the icon of the microphone button are not
      modelled. *)

From Stdlib Require Import ZArith NArith QArith String Ascii List HexadecimalString.
From stdpp Require Import base option list gmap strings.

Local Open Scope string_scope.

(** ** JavaScript values as the script uses them *)

Module JS.

(** Truthiness of a string: every string but the empty one. *)
Definition truthy (s : string) : bool :=
  match s with
  | EmptyString => false
  | String _ _ => true
  end.

(** [v || d] for a string-or-undefined [v] and a string [d]. *)
Definition or_else (v : option string) (d : string) : string :=
  match v with
  | Some s => if truthy s then s else d
  | None => d
  end.

(** [!v] for a string-or-undefined (or null) [v]. *)
Definition falsy (v : option string) : bool :=
  match v with
  | Some s => negb (truthy s)
  | None => true
  end.

(** White space removed by [String.prototype.trim]: the WhiteSpace and
    LineTerminator code points of ECMAScript.  A string of the model is the
    UTF-8 encoding of the script's string, so that a white-space character is
    one, two or three bytes:
    - U+0009 to U+000D and U+0020, one byte each;
    - U+00A0 (no-break space), C2 A0;
    - U+1680, E1 9A 80;
    - U+2000 to U+200A, E2 80 80 to E2 80 8A;
    - U+2028 and U+2029 (line and paragraph separator), E2 80 A8 and E2 80 A9;
    - U+202F, E2 80 AF;
    - U+205F, E2 81 9F;
    - U+3000, E3 80 80;
    - U+FEFF (byte order mark), EF BB BF. *)
Definition is_space (c : ascii) : bool :=
  let n := nat_of_ascii c in
  ((9 <=? n)%nat && (n <=? 13)%nat) || (n =? 32)%nat.

Definition is_space2 (a b : ascii) : bool :=
  ((nat_of_ascii a =? 194) && (nat_of_ascii b =? 160))%nat.

Definition is_space3 (a b c : ascii) : bool :=
  let x := nat_of_ascii a in
  let y := nat_of_ascii b in
  let z := nat_of_ascii c in
  ((x =? 225) && (y =? 154) && (z =? 128)
   || (x =? 226) && (y =? 128)
      && ((128 <=? z) && (z <=? 138) || (z =? 168) || (z =? 169) || (z =? 175))
   || (x =? 226) && (y =? 129) && (z =? 159)
   || (x =? 227) && (y =? 128) && (z =? 128)
   || (x =? 239) && (y =? 187) && (z =? 191))%nat.

(** Drops the white space at the start, character by character. *)
Fixpoint trim_start (s : string) : string :=
  match s with
  | String a r =>
      if is_space a then trim_start r
      else
        match r with
        | String b r2 =>
            if is_space2 a b then trim_start r2
            else
              match r2 with
              | String c r3 => if is_space3 a b c then trim_start r3 else s
              | EmptyString => s
              end
        | EmptyString => s
        end
  | EmptyString => EmptyString
  end.

(** The same from the end, on the reversed string: the last byte comes
    first.  A lead byte of UTF-8 is no continuation byte, so that a white-space
    character found at the end is a character of the string. *)
Fixpoint trim_start_rev (s : string) : string :=
  match s with
  | String c r =>
      if is_space c then trim_start_rev r
      else
        match r with
        | String b r2 =>
            if is_space2 b c then trim_start_rev r2
            else
              match r2 with
              | String a r3 => if is_space3 a b c then trim_start_rev r3 else s
              | EmptyString => s
              end
        | EmptyString => s
        end
  | EmptyString => EmptyString
  end.

Definition trim_end (s : string) : string :=
  String.rev (trim_start_rev (String.rev s)).

Definition trim (s : string) : string := trim_end (trim_start s).

(** The no-break space U+00A0, a white-space character of two bytes. *)
Definition nbsp : string := String (ascii_of_nat 194) (String (ascii_of_nat 160) "").

End JS.

(** ** Data model *)

(** [WebSocket.readyState]. *)
Inductive ReadyState := CONNECTING | OPEN | CLOSING | CLOSED.

#[global] Instance ReadyState_eq_dec : EqDecision ReadyState.
Proof. solve_decision. Defined.

(** A decoded server frame, as [handleWSMessage] destructures it:
    [{ type, id, text, error }].  A field that is absent or [null] is [None];
    the protocol's fields are strings. *)
Record Msg := MkMsg {
  m_type : option string;
  m_id : option string;
  m_text : option string;
  m_error : option string
}.

(** A client frame, [{type: 'query', id, question}] or [{type: 'cancel', id}]. *)
Inductive Frame :=
| Query (id question : string)
| Cancel (id : string).

(** Calls into the browser, recorded in [trace]. *)
Inductive Effect :=
| SynthCancel                  (* window.speechSynthesis.cancel() *)
| SynthSpeak (txt : string)    (* speechSynthesis.speak(u) *)
| AudioPause                   (* audio.pause(); audio.src = '' *)
| AudioPlay                    (* new Audio(audioUrl) ... audio.play() *)
| RevokeUrl                    (* URL.revokeObjectURL(audioUrl) *)
| WsNew                        (* new WebSocket(WS_URL) *)
| WsSend (f : Frame)           (* ws.send(JSON.stringify(f)) on an open socket *)
| WsClose                      (* ws.close() *)
| RecNew                       (* new SpeechRecognition() *)
| RecStart                     (* recognition.start() *)
| RecStop                      (* recognition.stop() *)
| FetchSpeak (txt : string)    (* fetch('/speak', {text}) *)
| FetchQuery (q : string)      (* fetch('/query', {question}) *)
| LoadModel                    (* ort.InferenceSession.create(...) *)
| ProcessorDisconnect          (* vadProcessor.disconnect() *)
| SourceDisconnect             (* vadSource.disconnect() *)
| AudioCtxClose.               (* vadAudioCtx.close() *)

(** Callbacks handed to [setTimeout]. *)
Inductive TimerAction :=
| ArmBargeIn                   (* () => { if (aiSpeaking) bargeInEnabled = true; } *)
| Ask (transcript : string)    (* () => handleQuestion(transcript) *)
| Reconnect.                   (* createWebSocket *)

(** An audio sample; a window is a list of them. *)
Definition Sample := Q.

#[projections(primitive)]
Record State := MkState {
  (* the script's state *)
  running : bool;
  recognition : bool;
  aiSpeaking : bool;
  bargeInEnabled : bool;
  audio : bool;
  vadRunning : bool;
  vadSession : bool;
  vadAudioCtx : bool;
  vadSource : bool;
  vadProcessor : bool;
  ws : option ReadyState;
  wsReady : bool;
  currentReqId : option string;
  partialBuffer : gmap string string;
  (* [ring], the window buffer local to startVAD *)
  ring : list Sample;
  (* the page *)
  userText : string;
  botText : string;
  (* the browser: capabilities, clock, timers, calls made so far *)
  hasSpeechSynthesis : bool;
  hasSpeechRecognition : bool;
  now : N;
  timers : list (N * TimerAction);
  trace : list Effect
}.

(** Field updates ([x = v] in the script). *)
Definition set_running v (s : State) : State :=
  let 'MkState _ f2 f3 f4 f5 f6 f7 f8 f9 f10 f11 f12 f13 f14 f15 f16 f17 f18 f19 f20 f21 f22 := s in
  MkState v f2 f3 f4 f5 f6 f7 f8 f9 f10 f11 f12 f13 f14 f15 f16 f17 f18 f19 f20 f21 f22.
Definition set_recognition v (s : State) : State :=
  let 'MkState f1 _ f3 f4 f5 f6 f7 f8 f9 f10 f11 f12 f13 f14 f15 f16 f17 f18 f19 f20 f21 f22 := s in
  MkState f1 v f3 f4 f5 f6 f7 f8 f9 f10 f11 f12 f13 f14 f15 f16 f17 f18 f19 f20 f21 f22.
Definition set_aiSpeaking v (s : State) : State :=
  let 'MkState f1 f2 _ f4 f5 f6 f7 f8 f9 f10 f11 f12 f13 f14 f15 f16 f17 f18 f19 f20 f21 f22 := s in
  MkState f1 f2 v f4 f5 f6 f7 f8 f9 f10 f11 f12 f13 f14 f15 f16 f17 f18 f19 f20 f21 f22.
Definition set_bargeInEnabled v (s : State) : State :=
  let 'MkState f1 f2 f3 _ f5 f6 f7 f8 f9 f10 f11 f12 f13 f14 f15 f16 f17 f18 f19 f20 f21 f22 := s in
  MkState f1 f2 f3 v f5 f6 f7 f8 f9 f10 f11 f12 f13 f14 f15 f16 f17 f18 f19 f20 f21 f22.
Definition set_audio v (s : State) : State :=
  let 'MkState f1 f2 f3 f4 _ f6 f7 f8 f9 f10 f11 f12 f13 f14 f15 f16 f17 f18 f19 f20 f21 f22 := s in
  MkState f1 f2 f3 f4 v f6 f7 f8 f9 f10 f11 f12 f13 f14 f15 f16 f17 f18 f19 f20 f21 f22.
Definition set_vadRunning v (s : State) : State :=
  let 'MkState f1 f2 f3 f4 f5 _ f7 f8 f9 f10 f11 f12 f13 f14 f15 f16 f17 f18 f19 f20 f21 f22 := s in
  MkState f1 f2 f3 f4 f5 v f7 f8 f9 f10 f11 f12 f13 f14 f15 f16 f17 f18 f19 f20 f21 f22.
Definition set_vadSession v (s : State) : State :=
  let 'MkState f1 f2 f3 f4 f5 f6 _ f8 f9 f10 f11 f12 f13 f14 f15 f16 f17 f18 f19 f20 f21 f22 := s in
  MkState f1 f2 f3 f4 f5 f6 v f8 f9 f10 f11 f12 f13 f14 f15 f16 f17 f18 f19 f20 f21 f22.
Definition set_vadAudioCtx v (s : State) : State :=
  let 'MkState f1 f2 f3 f4 f5 f6 f7 _ f9 f10 f11 f12 f13 f14 f15 f16 f17 f18 f19 f20 f21 f22 := s in
  MkState f1 f2 f3 f4 f5 f6 f7 v f9 f10 f11 f12 f13 f14 f15 f16 f17 f18 f19 f20 f21 f22.
Definition set_vadSource v (s : State) : State :=
  let 'MkState f1 f2 f3 f4 f5 f6 f7 f8 _ f10 f11 f12 f13 f14 f15 f16 f17 f18 f19 f20 f21 f22 := s in
  MkState f1 f2 f3 f4 f5 f6 f7 f8 v f10 f11 f12 f13 f14 f15 f16 f17 f18 f19 f20 f21 f22.
Definition set_vadProcessor v (s : State) : State :=
  let 'MkState f1 f2 f3 f4 f5 f6 f7 f8 f9 _ f11 f12 f13 f14 f15 f16 f17 f18 f19 f20 f21 f22 := s in
  MkState f1 f2 f3 f4 f5 f6 f7 f8 f9 v f11 f12 f13 f14 f15 f16 f17 f18 f19 f20 f21 f22.
Definition set_ws v (s : State) : State :=
  let 'MkState f1 f2 f3 f4 f5 f6 f7 f8 f9 f10 _ f12 f13 f14 f15 f16 f17 f18 f19 f20 f21 f22 := s in
  MkState f1 f2 f3 f4 f5 f6 f7 f8 f9 f10 v f12 f13 f14 f15 f16 f17 f18 f19 f20 f21 f22.
Definition set_wsReady v (s : State) : State :=
  let 'MkState f1 f2 f3 f4 f5 f6 f7 f8 f9 f10 f11 _ f13 f14 f15 f16 f17 f18 f19 f20 f21 f22 := s in
  MkState f1 f2 f3 f4 f5 f6 f7 f8 f9 f10 f11 v f13 f14 f15 f16 f17 f18 f19 f20 f21 f22.
Definition set_currentReqId v (s : State) : State :=
  let 'MkState f1 f2 f3 f4 f5 f6 f7 f8 f9 f10 f11 f12 _ f14 f15 f16 f17 f18 f19 f20 f21 f22 := s in
  MkState f1 f2 f3 f4 f5 f6 f7 f8 f9 f10 f11 f12 v f14 f15 f16 f17 f18 f19 f20 f21 f22.
Definition set_partialBuffer v (s : State) : State :=
  let 'MkState f1 f2 f3 f4 f5 f6 f7 f8 f9 f10 f11 f12 f13 _ f15 f16 f17 f18 f19 f20 f21 f22 := s in
  MkState f1 f2 f3 f4 f5 f6 f7 f8 f9 f10 f11 f12 f13 v f15 f16 f17 f18 f19 f20 f21 f22.
Definition set_ring v (s : State) : State :=
  let 'MkState f1 f2 f3 f4 f5 f6 f7 f8 f9 f10 f11 f12 f13 f14 _ f16 f17 f18 f19 f20 f21 f22 := s in
  MkState f1 f2 f3 f4 f5 f6 f7 f8 f9 f10 f11 f12 f13 f14 v f16 f17 f18 f19 f20 f21 f22.
Definition set_userText v (s : State) : State :=
  let 'MkState f1 f2 f3 f4 f5 f6 f7 f8 f9 f10 f11 f12 f13 f14 f15 _ f17 f18 f19 f20 f21 f22 := s in
  MkState f1 f2 f3 f4 f5 f6 f7 f8 f9 f10 f11 f12 f13 f14 f15 v f17 f18 f19 f20 f21 f22.
Definition set_botText v (s : State) : State :=
  let 'MkState f1 f2 f3 f4 f5 f6 f7 f8 f9 f10 f11 f12 f13 f14 f15 f16 _ f18 f19 f20 f21 f22 := s in
  MkState f1 f2 f3 f4 f5 f6 f7 f8 f9 f10 f11 f12 f13 f14 f15 f16 v f18 f19 f20 f21 f22.
Definition set_now v (s : State) : State :=
  let 'MkState f1 f2 f3 f4 f5 f6 f7 f8 f9 f10 f11 f12 f13 f14 f15 f16 f17 f18 f19 _ f21 f22 := s in
  MkState f1 f2 f3 f4 f5 f6 f7 f8 f9 f10 f11 f12 f13 f14 f15 f16 f17 f18 f19 v f21 f22.
Definition set_timers v (s : State) : State :=
  let 'MkState f1 f2 f3 f4 f5 f6 f7 f8 f9 f10 f11 f12 f13 f14 f15 f16 f17 f18 f19 f20 _ f22 := s in
  MkState f1 f2 f3 f4 f5 f6 f7 f8 f9 f10 f11 f12 f13 f14 f15 f16 f17 f18 f19 f20 v f22.
Definition set_trace v (s : State) : State :=
  let 'MkState f1 f2 f3 f4 f5 f6 f7 f8 f9 f10 f11 f12 f13 f14 f15 f16 f17 f18 f19 f20 f21 _ := s in
  MkState f1 f2 f3 f4 f5 f6 f7 f8 f9 f10 f11 f12 f13 f14 f15 f16 f17 f18 f19 f20 f21 v.

(** A call into the browser. *)
Definition emit (e : Effect) (s : State) : State := set_trace (trace s ++ [e]) s.

(** [setTimeout(cb, delay)]. *)
Definition setTimeout (cb : TimerAction) (delay : N) (s : State) : State :=
  set_timers (timers s ++ [((now s + delay)%N, cb)]) s.

(** The script as loaded: nothing running, no request, an empty accumulator. *)
Definition init (synth recog : bool) : State :=
  MkState false false false false false false false false false false
          None false None ∅ [] "" "" synth recog 0%N [] [].

(** ** Speech control: [onAISpeechStart], [onAISpeechEnd], [stopSpeaking] *)

Definition DEAD_ZONE : N := 350.
Definition SETTLE_DELAY : N := 40.
Definition RECONNECT_DELAY : N := 2000.

Definition onAISpeechStart (s : State) : State :=
  let s := set_aiSpeaking true s in
  let s := if recognition s then emit RecStop s else s in
  let s := set_bargeInEnabled false s in
  setTimeout ArmBargeIn DEAD_ZONE s.

(** The dead-zone callback, [() => { if (aiSpeaking) bargeInEnabled = true; }]. *)
Definition armBargeIn (s : State) : State :=
  if aiSpeaking s then set_bargeInEnabled true s else s.

Definition onAISpeechEnd (s : State) : State :=
  let s := set_aiSpeaking false s in
  let s := set_bargeInEnabled false s in
  if recognition s then emit RecStart s else s.

(** [ws.send(frame)]: [None] when the call throws ([ws] is null, or the socket
    is still connecting); a socket that is closing or closed drops the frame
    silently. *)
Definition ws_send (f : Frame) (s : State) : option State :=
  match ws s with
  | Some OPEN => Some (emit (WsSend f) s)
  | Some CLOSING | Some CLOSED => Some s
  | Some CONNECTING | None => None
  end.

Definition stopSpeaking (startListening : bool) (s : State) : State :=
  let s := set_aiSpeaking false s in
  let s := set_bargeInEnabled false s in
  let s := if hasSpeechSynthesis s then emit SynthCancel s else s in
  let s := if audio s then set_audio false (emit AudioPause s) else s in
  let s :=
    match currentReqId s with
    | Some id =>
        if wsReady s && JS.truthy id
        then set_currentReqId None (default s (ws_send (Cancel id) s))
        else s
    | None => s
    end in
  if startListening && recognition s then emit RecStart s else s.

(** ** Playback: [playAnswerAudio], [fallbackSpeak] *)

Definition fallbackSpeak (txt : string) (cb : State -> State) (s : State) : State :=
  if hasSpeechSynthesis s then emit (SynthSpeak txt) s else cb s.

(** [playAnswerAudio] up to [await fetch('/speak', ...)]. *)
Definition playAnswerAudio (answerText : string) (s : State) : State :=
  emit (FetchSpeak answerText) (onAISpeechStart s).

(** What the fetch and the playback that follows come to. *)
Inductive SpeakOutcome :=
| NoContent        (* status 204 *)
| AudioBytes       (* a blob; audio.play() resolves *)
| PlayRejected     (* a blob; audio.play() rejects *)
| SpeakFailed.     (* network failure or a status that is not ok *)

(** [playAnswerAudio] from the [await] on. *)
Definition playAnswerAudio_resume (answerText : string) (o : SpeakOutcome) (s : State) : State :=
  match o with
  | NoContent => fallbackSpeak answerText onAISpeechEnd s
  | AudioBytes => emit AudioPlay (set_audio true s)
  | PlayRejected => fallbackSpeak answerText onAISpeechEnd (emit AudioPlay (set_audio true s))
  | SpeakFailed => fallbackSpeak answerText onAISpeechEnd s
  end.

Definition audio_onended (s : State) : State :=
  onAISpeechEnd (set_audio false (emit RevokeUrl s)).

Definition audio_onerror (s : State) : State :=
  onAISpeechEnd (set_audio false s).

(** [u.onend = () => { if (cb) cb(); }] of the fallback utterance; the script
    passes [onAISpeechEnd] for [cb]. *)
Definition utterance_onend (s : State) : State := onAISpeechEnd s.

(** ** Questions: [handleQuestion], [handleQuestionViaFetch] *)

(** [handleQuestionViaFetch] up to [await fetch('/query', ...)]. *)
Definition handleQuestionViaFetch (questionText : string) (s : State) : State :=
  emit (FetchQuery questionText) (set_botText "Thinking..." s).

Inductive QueryOutcome :=
| Answered (answer : option string)   (* qData.answer *)
| QueryFailed.                        (* network failure, status not ok, bad body *)

Definition handleQuestionViaFetch_resume (o : QueryOutcome) (s : State) : State :=
  match o with
  | Answered a =>
      let answer := JS.or_else a "No answer returned." in
      playAnswerAudio answer (set_botText answer s)
  | QueryFailed => set_botText "Error contacting assistant." s
  end.

(** [handleQuestion]; [id] is the value of [uuidv4()]. *)
Definition handleQuestion (questionText id : string) (s : State) : State :=
  if negb (JS.truthy questionText) || negb (JS.truthy (JS.trim questionText)) then s
  else
    let s := set_botText "Thinking..." s in
    if wsReady s then
      let s := set_currentReqId (Some id) s in
      let s := set_partialBuffer (<[id := ""]> (partialBuffer s)) s in
      match ws_send (Query id questionText) s with
      | Some s' => s'
      | None => handleQuestionViaFetch questionText s
      end
    else handleQuestionViaFetch questionText s.

(** ** The generation channel: [createWebSocket], [handleWSMessage] *)

Definition createWebSocket (s : State) : State :=
  match ws s with
  | Some OPEN | Some CONNECTING => s
  | _ => emit WsNew (set_ws (Some CONNECTING) s)
  end.

(** The accumulated text of [id], [partialBuffer[id] || ''].  The keys are
    request ids (values of [uuidv4]), never names of [Object.prototype]. *)
Definition accumulated (id : string) (s : State) : string :=
  JS.or_else (partialBuffer s !! id) "".

Definition handleWSMessage (msg : Msg) (s : State) : State :=
  match m_id msg with
  | None => s
  | Some id =>
      if negb (JS.truthy id) then s
      else if decide (m_type msg = Some "partial") then
        let acc := accumulated id s +:+ JS.or_else (m_text msg) "" in
        set_botText acc (set_partialBuffer (<[id := acc]> (partialBuffer s)) s)
      else if decide (m_type msg = Some "final") then
        let finalText := JS.or_else (m_text msg) (accumulated id s) in
        playAnswerAudio finalText (set_partialBuffer (delete id (partialBuffer s)) s)
      else if decide (m_type msg = Some "error") then
        set_botText ("Error: " +:+ JS.or_else (m_error msg) "Unknown error") s
      else s
  end.

(** [ws.onmessage]: [decoded] is [JSON.parse(evt.data)], [None] when the
    parse (or the destructuring of a non-object) throws. *)
Definition ws_onmessage (decoded : option Msg) (s : State) : State :=
  match decoded with
  | Some msg => handleWSMessage msg s
  | None => s
  end.

(** [ws.onopen], [ws.onclose], [ws.onerror].  The socket's own state moves
    with the event, unless the socket is a detached one ([ws] was reset since
    it was created). *)
Definition ws_onopen (s : State) : State :=
  let s := if bool_decide (ws s = Some CONNECTING) then set_ws (Some OPEN) s else s in
  set_wsReady true s.

Definition ws_onclose (detached : bool) (s : State) : State :=
  let s := if detached || bool_decide (ws s = None) then s else set_ws (Some CLOSED) s in
  setTimeout Reconnect RECONNECT_DELAY (set_wsReady false s).

(** [try { ws.close(); } catch {}]: the call throws when [ws] is null. *)
Definition ws_close (s : State) : State :=
  match ws s with
  | Some OPEN | Some CONNECTING => emit WsClose (set_ws (Some CLOSING) s)
  | Some _ => emit WsClose s
  | None => s
  end.

Definition ws_onerror (s : State) : State :=
  ws_close (set_wsReady false s).

(** ** Speech capture: [setupRecognition] and the recogniser's callbacks *)

Definition setupRecognition (s : State) : State :=
  if negb (hasSpeechRecognition s)
  then set_botText "Speech recognition not supported in this browser." s
  else emit RecStart (emit RecNew (set_recognition true s)).

(** [recognition.onresult]; [raw] is [last[0].transcript] and [id] the value
    [uuidv4()] takes if [handleQuestion] is reached at once. *)
Definition recognition_onresult (raw id : string) (s : State) : State :=
  let transcript := JS.trim raw in
  if negb (JS.truthy transcript) then s
  else
    let s := set_userText transcript s in
    if aiSpeaking s
    then setTimeout (Ask transcript) SETTLE_DELAY (stopSpeaking false s)
    else handleQuestion transcript id s.

(** [recognition.onend]; the call [recognition.start()] throws into the
    [catch] when the variable is null. *)
Definition recognition_onend (s : State) : State :=
  if running s && negb (aiSpeaking s)
  then if recognition s then emit RecStart s else s
  else s.

(** ** Voice activity monitor: [startVAD], [stopVAD] *)

Definition Qgtb (x y : Q) : bool :=
  match (x ?= y)%Q with
  | Gt => true
  | _ => false
  end.

(** [const threshold = aiSpeaking ? 0.8 : 0.65].  A score is the rational
    its float denotes.  The score is an element of the model's float32 output
    tensor, and no float32 lies between 4/5 (or 13/20) and the double that
    the literal denotes, so that [speechProb > threshold] is the strict
    comparison of the score with the rational threshold. *)
Definition threshold (s : State) : Q := if aiSpeaking s then 0.8%Q else 0.65%Q.

(** The test that guards the barge-in,
    [aiSpeaking && bargeInEnabled && speechProb > threshold]. *)
Definition bargeIn (speechProb : Q) (s : State) : bool :=
  aiSpeaking s && bargeInEnabled s && Qgtb speechProb (threshold s).

Definition WINDOW : nat := 1600.

(** [onaudioprocess] up to [await session.run(...)]: the samples are pushed,
    and the flag tells whether a classification was started. *)
Definition onaudioprocess_push (inputData : list Sample) (s : State) : State * bool :=
  if negb (vadRunning s) then (s, false)
  else
    let s := set_ring (ring s ++ inputData) s in
    (s, (WINDOW <? length (ring s))%nat).

(** [onaudioprocess] from the [await] on: [result] is the classifier's score
    [results.output.data[0]], [None] when the run throws; the [finally]
    clause empties the window. *)
Definition onaudioprocess_resume (result : option Q) (s : State) : State :=
  let s :=
    match result with
    | Some speechProb => if bargeIn speechProb s then stopSpeaking true s else s
    | None => s
    end in
  set_ring [] s.

(** A call of [onaudioprocess] whose classification, if any, completes before
    the next event. *)
Definition onaudioprocess (inputData : list Sample) (result : option Q) (s : State) : State :=
  let '(s', classify) := onaudioprocess_push inputData s in
  if classify then onaudioprocess_resume result s' else s'.

Definition stopVAD (s : State) : State :=
  let s := set_vadRunning false s in
  let s := if vadProcessor s then set_vadProcessor false (emit ProcessorDisconnect s) else s in
  let s := if vadSource s then set_vadSource false (emit SourceDisconnect s) else s in
  let s := if vadAudioCtx s then set_vadAudioCtx false (emit AudioCtxClose s) else s in
  set_vadSession false s.

(** ** The microphone button: [startAssistant], [stopAssistant] *)

(** [startAssistant] up to [await loadSileroModel()]. *)
Definition startAssistant (s : State) : State :=
  if running s then s
  else
    let s := set_running true s in
    let s := set_botText "Listening..." s in
    emit LoadModel (setupRecognition s).

(** How the two awaits of [startAssistant] end. *)
Inductive VadOutcome :=
| ModelFailed      (* InferenceSession.create rejects *)
| MediaFailed      (* the model loads, getUserMedia rejects *)
| VadStarted.

(** [startAssistant] from the awaits on: [loadSileroModel] and [startVAD]
    complete (or throw into the [catch]), then the channel is opened. *)
Definition startAssistant_resume (o : VadOutcome) (s : State) : State :=
  let s :=
    match o with
    | ModelFailed => s
    | MediaFailed => set_vadSession true s
    | VadStarted =>
        let s := set_vadSession true s in
        let s := set_vadAudioCtx true s in
        let s := set_vadSource true s in
        let s := set_vadProcessor true s in
        let s := set_ring [] s in
        set_vadRunning true s
    end in
  createWebSocket s.

Definition stopAssistant (s : State) : State :=
  if negb (running s) then s
  else
    let s := set_running false s in
    let s := set_botText "Stopped" s in
    let s := if recognition s then set_recognition false (emit RecStop s) else s in
    let s := stopVAD s in
    let s := stopSpeaking false s in
    match ws s with
    | Some _ => set_wsReady false (set_ws None (emit WsClose s))
    | None => s
    end.

(** The click handler of the microphone button. *)
Definition micBtn_click (s : State) : State :=
  if negb (running s) then startAssistant s else stopAssistant s.

(** ** Timers *)

Fixpoint min_due (ts : list (N * TimerAction)) : option N :=
  match ts with
  | [] => None
  | (d, _) :: r =>
      match min_due r with
      | Some m => Some (N.min d m)
      | None => Some d
      end
  end.

(** Takes out the first timer due at [d]. *)
Fixpoint take_due (d : N) (ts : list (N * TimerAction))
  : option (TimerAction * list (N * TimerAction)) :=
  match ts with
  | [] => None
  | (d', a) :: r =>
      if (d' =? d)%N then Some (a, r)
      else
        match take_due d r with
        | Some (a', r') => Some (a', (d', a) :: r')
        | None => None
        end
  end.

Definition run_callback (a : TimerAction) (id : string) (s : State) : State :=
  match a with
  | ArmBargeIn => armBargeIn s
  | Ask transcript => handleQuestion transcript id s
  | Reconnect => createWebSocket s
  end.

(** The earliest pending timer fires, once it is due (the earlier [setTimeout]
    first among equals); [id] is the value of [uuidv4()] if the callback calls
    it. *)
Definition fire_timer (id : string) (s : State) : State :=
  match min_due (timers s) with
  | Some d =>
      if (d <=? now s)%N then
        match take_due d (timers s) with
        | Some (a, r) => run_callback a id (set_timers r s)
        | None => s
        end
      else s
  | None => s
  end.

(** ** The event loop *)

(** What the browser can deliver to the script.  Each event runs one handler
    to completion. *)
Inductive Event :=
| MicClick
| VadReady (o : VadOutcome)
| WsOpened
| WsClosed (detached : bool)
| WsErrored
| WsMessage (decoded : option Msg)
| Result (raw id : string)
| RecognitionEnd
| AudioProcess (inputData : list Sample) (result : option Q)
| SpeakResponse (answerText : string) (o : SpeakOutcome)
| UtteranceEnd
| AudioEnded
| AudioError
| QueryResponse (o : QueryOutcome)
| Elapse (dt : N)
| TimerFires (id : string).

(** The recogniser's callbacks are attached while [recognition] is set
    ([stopAssistant] detaches them before it resets the variable). *)
Definition step (s : State) (e : Event) : State :=
  match e with
  | MicClick => micBtn_click s
  | VadReady o => startAssistant_resume o s
  | WsOpened => ws_onopen s
  | WsClosed detached => ws_onclose detached s
  | WsErrored => ws_onerror s
  | WsMessage decoded => ws_onmessage decoded s
  | Result raw id => if recognition s then recognition_onresult raw id s else s
  | RecognitionEnd => if recognition s then recognition_onend s else s
  | AudioProcess inputData result => onaudioprocess inputData result s
  | SpeakResponse answerText o => playAnswerAudio_resume answerText o s
  | UtteranceEnd => utterance_onend s
  | AudioEnded => audio_onended s
  | AudioError => audio_onerror s
  | QueryResponse o => handleQuestionViaFetch_resume o s
  | Elapse dt => set_now (now s + dt)%N s
  | TimerFires id => fire_timer id s
  end.

Definition run (s : State) (es : list Event) : State := fold_left step es s.

(** ** The server's socket handler, up to the start of a generation *)

Module Server.

(** A decoded client frame: [msg.type], [msg.id], [msg.question]. *)
Record ClientMsg := MkClientMsg {
  c_type : option string;
  c_id : option string;
  c_question : option string
}.

(** [id || null]. *)
Definition or_null (id : option string) : option string :=
  match id with
  | Some i => if JS.truthy i then Some i else None
  | None => None
  end.

Definition error_frame (id : option string) (e : string) : Msg :=
  MkMsg (Some "error") id None (Some e).

Inductive Reaction :=
| Reply (m : Msg)                  (* safeSend(ws, m); return *)
| Generate (id question : string)  (* the streaming generation starts *)
| Ignore.

(** [ws.on('message')]: [parsed] is [JSON.parse(raw.toString())], [None]
    when it throws; [active] holds the ids of [socketRequests]; [ai] tells
    whether the generation client is configured. *)
Definition on_message (parsed : option ClientMsg) (active : gset string) (ai : bool)
  : Reaction :=
  match parsed with
  | None => Reply (error_frame None "Invalid JSON")
  | Some msg =>
      if decide (c_type msg = Some "query") then
        match c_id msg, c_question msg with
        | Some id, Some question =>
            if negb (JS.truthy id) || negb (JS.truthy question)
            then Reply (error_frame (or_null (c_id msg)) "Missing id or question")
            else if decide (id ∈ active)
            then Reply (error_frame (Some id) "Request id already active")
            else if negb ai
            then Reply (MkMsg (Some "final") (Some id)
                   (Some ("Demo mode: I heard " +:+ String (ascii_of_nat 34) "" +:+ question
                          +:+ String (ascii_of_nat 34) ""
                          +:+ ". I can answer Revolt Motors questions like "
                          +:+ String (ascii_of_nat 34) ""
                          +:+ "Tell me about the RV400 range"
                          +:+ String (ascii_of_nat 34) "" +:+ "."))
                   None)
            else Generate id question
        | _, _ => Reply (error_frame (or_null (c_id msg)) "Missing id or question")
        end
      else if decide (c_type msg = Some "cancel") then
        match c_id msg with
        | Some id =>
            if JS.truthy id then Reply (MkMsg (Some "cancelled") (Some id) None None)
            else Ignore
        | None => Ignore
        end
      else Reply (error_frame (or_null (c_id msg)) "Unknown message type")
  end.

End Server.

(** * Vocabulary of the properties *)

(** The invariant of the two flags. *)
Definition armed_implies_speaking (s : State) : Prop :=
  bargeInEnabled s = true -> aiSpeaking s = true.

(** Two states with the same flags. *)
Definition same_flags (s s' : State) : Prop :=
  aiSpeaking s' = aiSpeaking s /\ bargeInEnabled s' = bargeInEnabled s.

(** The server's frames for a request [id]. *)
Definition partial_frame (id : string) (txt : option string) : Msg :=
  MkMsg (Some "partial") (Some id) txt None.

Definition final_frame (id : string) (txt : option string) : Msg :=
  MkMsg (Some "final") (Some id) txt None.

Definition cancelled_frame (id : string) : Msg :=
  MkMsg (Some "cancelled") (Some id) None None.

(** The frames are handled one after the other. *)
Definition deliver (ms : list Msg) (s : State) : State :=
  fold_left (fun s m => handleWSMessage m s) ms s.

(** The fragments of a sequence of partial events, put end to end; an event
    without text counts for the empty fragment ([text || '']). *)
Fixpoint concat_fragments (fs : list (option string)) : string :=
  match fs with
  | [] => ""
  | f :: r => JS.or_else f "" +:+ concat_fragments r
  end.

(** The state without the accumulator entry of [id]. *)
Definition forget (id : string) (s : State) : State :=
  set_partialBuffer (delete id (partialBuffer s)) s.

(** A handler that neither reads nor writes the accumulator. *)
Definition transparent (h : State -> State) : Prop :=
  forall pb s, h (set_partialBuffer pb s) = set_partialBuffer pb (h s).

(** A handler that does not read the accumulator entry of [id]: apart from
    that entry, what it does is the same whatever the entry holds, and
    whether or not it is there. *)
Definition blind (id : string) (h : State -> State) : Prop :=
  forall s pb1 pb2, delete id pb1 = delete id pb2 ->
    forget id (h (set_partialBuffer pb1 s)) = forget id (h (set_partialBuffer pb2 s)).

(** The events whose handling evaluates [partialBuffer[id]]: the partial and
    the final frames with the id [id]. *)
Definition reads_entry (id : string) (e : Event) : bool :=
  match e with
  | WsMessage (Some msg) =>
      bool_decide (m_id msg = Some id)
      && (bool_decide (m_type msg = Some "partial")
          || bool_decide (m_type msg = Some "final"))
  | _ => false
  end.

(** The events whose handling executes [delete partialBuffer[id]]: the final
    frames with the id [id]. *)
Definition deletes_entry (id : string) (e : Event) : bool :=
  match e with
  | WsMessage (Some msg) =>
      bool_decide (m_id msg = Some id) && bool_decide (m_type msg = Some "final")
  | _ => false
  end.

(** The request [stopSpeaking] cancels: the active one, provided the channel
    is ready ([wsReady && currentReqId]). *)
Definition cancelled_request (s : State) : option string :=
  match currentReqId s with
  | Some id => if wsReady s && JS.truthy id then Some id else None
  | None => None
  end.

(** The browser calls of [stopSpeaking], in order. *)
Definition stopSpeaking_calls (startListening : bool) (s : State) : list Effect :=
  ((if hasSpeechSynthesis s then [SynthCancel] else [])
   ++ (if audio s then [AudioPause] else [])
   ++ match cancelled_request s with
      | Some id => if bool_decide (ws s = Some OPEN) then [WsSend (Cancel id)] else []
      | None => []
      end
   ++ (if startListening && recognition s then [RecStart] else []))%list.

(** No dead-zone callback is due before [D]. *)
Definition no_arm_before (D : N) (ts : list (N * TimerAction)) : Prop :=
  forall d, (d, ArmBargeIn) ∈ ts -> (D <= d)%N.

(** The barge-in is disarmed and stays so until [D]. *)
Definition in_dead_zone (D : N) (s : State) : Prop :=
  bargeInEnabled s = false /\ no_arm_before D (timers s) /\ (D <= now s + DEAD_ZONE)%N.

(** A handler that leaves the clock alone, does not arm the barge-in, and at
    most appends one timer, a dead-zone callback only with the full delay. *)
Definition calm (s s' : State) : Prop :=
  now s' = now s /\
  (bargeInEnabled s' = bargeInEnabled s \/ bargeInEnabled s' = false) /\
  (timers s' = timers s \/
   exists a k, timers s' = (timers s ++ [((now s + k)%N, a)])%list /\
               (a = ArmBargeIn -> k = DEAD_ZONE)).

(** The events that run a handler of the script at once, as opposed to the
    passing of time and the firing of a timer. *)
Definition handler_event (e : Event) : bool :=
  match e with
  | Elapse _ | TimerFires _ => false
  | _ => true
  end.

(** ** Scenarios: runs of the event loop from the loaded script *)

Module Scenario.

(** Frames of the server, as they arrive. *)
Definition partial (id txt : string) : Event :=
  WsMessage (Some (partial_frame id (Some txt))).

Definition final (id : string) (txt : option string) : Event :=
  WsMessage (Some (final_frame id txt)).

Definition error (id e : string) : Event :=
  WsMessage (Some (MkMsg (Some "error") (Some id) None (Some e))).

Definition cancelled (id : string) : Event :=
  WsMessage (Some (cancelled_frame id)).

(** A window's worth of samples scored [0.9] by the classifier. *)
Definition loud_window : Event := AudioProcess (repeat 0%Q 1601) (Some 0.9%Q).

(** The assistant is started and the channel is open.  (Below, an event
    whose handler does not reach [uuidv4] carries the empty string for the
    id.) *)
Definition started : list Event := [MicClick; VadReady VadStarted; WsOpened].

(** A question is asked and answered; the answer has been playing for 350 ms
    and the dead-zone callback has run. *)
Definition speaking_armed : list Event :=
  started ++ [Result "range?" "a1"; final "a1" (Some "Hello");
              SpeakResponse "Hello" AudioBytes; Elapse 350; TimerFires ""].

(** Two questions in a row: the first request is still streaming when the
    second is sent, its late events follow. *)
Definition two_questions : list Event :=
  started ++ [Result "range?" "a1"; partial "a1" "Hel";
              Result "price?" "a2"; partial "a2" "New"].

(** ... and the first answer is being played, armed, while the second
    request streams. *)
Definition first_answer_playing : list Event :=
  two_questions ++ [partial "a1" "lo"; final "a1" (Some "Hello");
                    partial "a2" " answer"; Elapse 350; TimerFires ""].

(** The first answer starts at 0 ms.  The user speaks over it after 100 ms;
    the new question is sent after the settle delay, at 140 ms, and its
    answer arrives at 150 ms: the second answer starts. *)
Definition second_answer_started : list Event :=
  started ++ [Result "range?" "a1"; final "a1" (Some "Hello");
              SpeakResponse "Hello" AudioBytes; Elapse 100;
              Result "stop" ""; Elapse 40; TimerFires "a2"; Elapse 10;
              final "a2" (Some "Hi")].

(** ... and 200 ms later, at 350 ms, the dead-zone callback of the first
    answer runs. *)
Definition stale_dead_zone : list Event :=
  second_answer_started ++ [Elapse 200; TimerFires ""].

(** An answer is playing, armed, and the channel has closed meanwhile. *)
Definition speaking_armed_offline : list Event :=
  speaking_armed ++ [WsClosed false].

End Scenario.

(** * Further parts of the code *)

(** ** Request ids: [uuidv4] *)

Module Uuid.

Definition template : string := "xxxxxxxx-xxxx-4xxx-yxxx-xxxxxxxxxxxx".

(** [v.toString(16)] for an integer [v] that is not negative. *)
Definition toString16 (v : Z) : string :=
  NilZero.string_of_uint (N.to_hex_uint (Z.to_N v)).

(** [x | 0] for a number of small magnitude: the fraction is dropped. *)
Definition to_int (x : Q) : Z := Z.quot (Qnum x) (Z.pos (Qden x)).

(** The callback of [replace]: [c] is the matched character and [random] the
    value of [Math.random()]. *)
Definition replacement (c : ascii) (random : Q) : string :=
  let r := to_int (random * 16) in
  let v := if Ascii.eqb c "x" then r else Z.lor (Z.land r 3) 8 in
  toString16 v.

(** [t.replace(/[xy]/g, c => ...)]; [random k] is the value of the call of
    [Math.random()] number [k]. *)
Fixpoint replace_xy (t : string) (random : nat -> Q) (k : nat) : string :=
  match t with
  | EmptyString => EmptyString
  | String c r =>
      if Ascii.eqb c "x" || Ascii.eqb c "y"
      then replacement c (random k) +:+ replace_xy r random (S k)
      else String c (replace_xy r random k)
  end.

Definition uuidv4 (random : nat -> Q) : string := replace_xy template random 0.

(** The digits of [toString(16)]. *)
Definition is_hex (c : ascii) : bool :=
  let n := nat_of_ascii c in
  ((48 <=? n)%nat && (n <=? 57)%nat) || ((97 <=? n)%nat && (n <=? 102)%nat).

End Uuid.

(** ** The server's streaming loop *)

Module Generation.

(** A chunk of the model's stream, by the shape the loop tests, in the order
    of the tests. *)
Inductive Chunk :=
| Falsy                        (* !chunk *)
| Str (s : string)             (* typeof chunk === 'string' *)
| TextFn (r : option string)   (* chunk.text is a function; [r] is what it
                                  returns, [None] for nothing or a throw *)
| Text (s : string)            (* chunk.text is a string *)
| Delta (s : string)           (* chunk.delta.content, truthy *)
| Candidate (s : string)       (* chunk.candidates[0].content[0].parts[0].text, truthy *)
| Other.

Definition chunk_text (chunk : Chunk) : string :=
  match chunk with
  | Falsy => ""
  | Str s => s
  | TextFn r => JS.or_else r ""
  | Text s => s
  | Delta s => s
  | Candidate s => JS.or_else (Some s) ""
  | Other => ""
  end.

(** [safeSend(ws, obj)]: the frame goes out when the socket is open, and
    nothing is thrown. *)
Definition safeSend (open : bool) (m : Msg) : list Msg :=
  if open then [m] else [].

(** The [for await] loop from the value [accumulated], when no cancel message
    is handled while it runs: each item is a chunk with the state of the
    socket when it arrives.  The result is the value of
    [accumulated], the frames sent, and whether the loop left through
    [controller.abort(); break]. *)
Fixpoint stream_loop (id : string) (items : list (bool * Chunk)) (accumulated : string)
  : string * list Msg * bool :=
  match items with
  | [] => (accumulated, [], false)
  | (open, chunk) :: rest =>
      if negb open then (accumulated, [], true)
      else
        let chunkText := chunk_text chunk in
        if JS.truthy chunkText then
          let '(acc, frames, aborted) := stream_loop id rest (accumulated +:+ chunkText) in
          (acc, partial_frame id (Some chunkText) :: frames, aborted)
        else stream_loop id rest accumulated
  end.

(** How the iteration ends. *)
Inductive StreamEnd :=
| Completed
| Thrown (abortError : bool) (message : string).

(** The frame that ends the handler's run, after the loop or in the [catch]:
    [aborted] is [controller.signal.aborted], [accumulated] the value of the
    loop's variable. *)
Definition ending (id : string) (e : StreamEnd) (aborted : bool) (accumulated : string)
  : Msg :=
  match e with
  | Completed =>
      if aborted then cancelled_frame id
      else final_frame id (Some (JS.trim accumulated))
  | Thrown true _ => cancelled_frame id
  | Thrown false message => MkMsg (Some "error") (Some id) None (Some message)
  end.

(** What happens while the generation of a request runs: the stream yields a
    chunk, or the socket handler runs for a cancel message with the id of the
    request.  [open] is the state of the socket then. *)
Inductive Step :=
| Yield (open : bool) (chunk : Chunk)
| CancelMsg (open : bool).

(** The loop together with the cancel messages handled while it runs.  The
    cancel branch of [ws.on('message')] aborts the controller and answers with
    a cancelled frame at once; the loop does not test the controller, and goes
    on with the chunks that the stream still yields.  [aborted] is
    [controller.signal.aborted].  A chunk that finds the socket not open ends
    the loop, and nothing is sent from then on: a socket that has left the
    open state does not return to it. *)
Fixpoint wire_loop (id : string) (steps : list Step) (accumulated : string)
    (aborted : bool) : string * list Msg * bool :=
  match steps with
  | [] => (accumulated, [], aborted)
  | CancelMsg open :: rest =>
      let '(acc, frames, ab) := wire_loop id rest accumulated true in
      (acc, (safeSend open (cancelled_frame id) ++ frames)%list, ab)
  | Yield open chunk :: rest =>
      if negb open then (accumulated, [], true)
      else
        let chunkText := chunk_text chunk in
        if JS.truthy chunkText then
          let '(acc, frames, ab) :=
            wire_loop id rest (accumulated +:+ chunkText) aborted in
          (acc, partial_frame id (Some chunkText) :: frames, ab)
        else wire_loop id rest accumulated aborted
  end.

(** The acknowledgements of cancel messages for [id], one cancelled frame
    for each message that finds the socket open; a cancel message is
    acknowledged whether or not the request is still active. *)
Definition acks (id : string) (cancels : list bool) : list Msg :=
  flat_map (fun open => safeSend open (cancelled_frame id)) cancels.

(** The frames that the socket carries for the request [id] when the model's
    response is an async iterable: those of the loop and of the cancel
    messages handled meanwhile, the frame that ends the handler's run ([open]
    is the state of the socket then), and the acknowledgements of the cancel
    messages that arrive [late], after the run. *)
Definition wire (id : string) (steps : list Step) (e : StreamEnd) (open : bool)
    (late : list bool) : list Msg :=
  let '(acc, sent, aborted) := wire_loop id steps "" false in
  (sent ++ safeSend open (ending id e aborted acc) ++ acks id late)%list.

(** The same when the answer is sent whole, in one final frame that is sent
    whatever the controller's state: the text read off a response that holds
    no async iterable, or the canned answer of the demo mode.  [early] are the
    cancel messages handled while the response is awaited. *)
Definition wire_whole (id : string) (early : list bool) (finalText : string)
    (open : bool) (late : list bool) : list Msg :=
  (acks id early ++ safeSend open (final_frame id (Some finalText)) ++ acks id late)%list.

(** The value of [accumulated] after the loop, and the partial frames the
    loop has sent. *)
Definition accumulated_text (id : string) (items : list (bool * Chunk)) : string :=
  (stream_loop id items "").1.1.

Definition partials_sent (id : string) (items : list (bool * Chunk)) : list Msg :=
  (stream_loop id items "").1.2.

(** A partial frame with a text that is not empty. *)
Definition is_partial (id : string) (m : Msg) : Prop :=
  exists txt, JS.truthy txt = true /\ m = partial_frame id (Some txt).

(** A frame that ends a request: final, cancelled or error. *)
Definition is_terminal (id : string) (m : Msg) : Prop :=
  m_id m = Some id /\
  (m_type m = Some "final" \/ m_type m = Some "cancelled" \/ m_type m = Some "error").

(** The text of the chunks, end to end. *)
Fixpoint concat_text (chunks : list Chunk) : string :=
  match chunks with
  | [] => ""
  | c :: r => chunk_text c +:+ concat_text r
  end.

End Generation.

(** ** The server's HTTP fallbacks: [/query] and [/speak] *)

Module Http.

(** A response, as far as the client reads it: the status, and the answer of
    a successful [/query]. *)
Inductive Response :=
| Status400
| Status200 (answer : string)   (* {answer}, or the audio of [/speak] *)
| Status204
| Status500.

(** What [ai.models.generateContent] comes to in [/query]: the fields the
    handler reads. *)
Inductive Generated :=
| Failed                                           (* the call throws *)
| Resp (text : option string) (part : option string).
   (* resp.text and resp.candidates[0].content[0].parts[0].text *)

Definition quote : string := String (ascii_of_nat 34) "".

(** [app.post('/query')]: [body] is [req.body.question]; [ai] is the outcome
    of the generation, [None] when no client is configured. *)
Definition query (body : option string) (ai : option Generated) : Response :=
  let question := JS.trim (JS.or_else body "") in
  if negb (JS.truthy question) then Status400
  else
    match ai with
    | None =>
        Status200 ("Demo mode: I heard " +:+ quote +:+ question +:+ quote
            +:+ ". I can answer Revolt Motors questions like " +:+ quote
            +:+ "Tell me about the RV400 range" +:+ quote +:+ ".")
    | Some Failed => Status500
    | Some (Resp text part) =>
        let answer := JS.or_else text "" in
        let answer := if JS.truthy answer then answer else JS.or_else part "" in
        let answer :=
          if JS.truthy answer then answer
          else "Sorry, I couldn't generate an answer for " +:+ quote +:+ question
               +:+ quote +:+ "." in
        Status200 (JS.trim answer)
    end.

(** The client's reading of the response of [/query]: [qResp.ok], then
    [qData.answer] of the decoded body (a body that is empty does not
    decode). *)
Definition query_outcome (r : Response) : QueryOutcome :=
  match r with
  | Status200 answer => Answered (Some answer)
  | Status204 | Status400 | Status500 => QueryFailed
  end.

(** What the speech model comes to in [/speak]. *)
Inductive Synthesized :=
| SynthFailed          (* the call throws *)
| NoAudio              (* the response holds no audio data *)
| Audio.               (* base64 audio data *)

(** [app.post('/speak')]: [body] is [req.body.text]. *)
Definition speak (body : option string) (ai : option Synthesized) : Response :=
  let text := JS.trim (JS.or_else body "") in
  if negb (JS.truthy text) then Status400
  else
    match ai with
    | None => Status204
    | Some SynthFailed => Status500
    | Some NoAudio => Status204
    | Some Audio => Status200 ""
    end.

(** The client's reading of the response of [/speak]; [plays] tells whether
    [audio.play()] resolves. *)
Definition speak_outcome (r : Response) (plays : bool) : SpeakOutcome :=
  match r with
  | Status204 => NoContent
  | Status200 _ => if plays then AudioBytes else PlayRejected
  | Status400 | Status500 => SpeakFailed
  end.

End Http.

(** ** Vocabulary of the further properties *)


(** The event that ends the playback or the fallback of an answer. *)
Definition completion (o : SpeakOutcome) (synth : bool) : list Event :=
  match o with
  | AudioBytes => [AudioEnded]
  | _ => if synth then [UtteranceEnd] else []
  end.

(** A frame other than a final one. *)
Definition not_final (m : Msg) : Prop := m_type m <> Some "final".

(** The frames that the server sends for a request that it accepts: the
    answer is streamed, or sent whole. *)
Definition served (id : string) (fs : list Msg) : Prop :=
  (exists steps e open late, fs = Generation.wire id steps e open late) \/
  (exists early finalText open late, fs = Generation.wire_whole id early finalText open late).

(** * Properties *)

(** Case analysis on a state: the record is opened, after which a handler run
    on it computes as far as the fields it tests are known. *)
Ltac open_state s :=
  destruct s as [running0 recognition0 aiSpeaking0 bargeInEnabled0 audio0
                 vadRunning0 vadSession0 vadAudioCtx0 vadSource0 vadProcessor0
                 ws0 wsReady0 currentReqId0 partialBuffer0 ring0 userText0
                 botText0 synth0 recog0 now0 timers0 trace0].

Ltac case_socket x := destruct x as [[| | |]|].
Ltac case_id x := destruct x as [[|? ?]|].

Ltac calm_now :=
  split; [reflexivity|];
  split; [first [left; reflexivity | right; reflexivity]|];
  first [ left; reflexivity
        | right; eexists _, _; split; [reflexivity|];
          first [intros _; reflexivity | discriminate] ].

(** ** Supporting lemmas *)

(** *** The flags [aiSpeaking] and [bargeInEnabled] *)

Lemma same_flags_invariant s s' :
  same_flags s s' -> armed_implies_speaking s -> armed_implies_speaking s'.
Proof. unfold armed_implies_speaking. intros [-> ->]. auto. Qed.

Lemma onAISpeechStart_flags s :
  aiSpeaking (onAISpeechStart s) = true /\ bargeInEnabled (onAISpeechStart s) = false.
Proof. open_state s. destruct recognition0; split; reflexivity. Qed.

Lemma onAISpeechEnd_flags s :
  aiSpeaking (onAISpeechEnd s) = false /\ bargeInEnabled (onAISpeechEnd s) = false.
Proof. open_state s. destruct recognition0; split; reflexivity. Qed.

Lemma stopSpeaking_flags b s :
  aiSpeaking (stopSpeaking b s) = false /\ bargeInEnabled (stopSpeaking b s) = false.
Proof.
  open_state s.
  destruct b, recognition0, audio0, synth0, wsReady0;
    case_id currentReqId0; case_socket ws0; split; reflexivity.
Qed.

Lemma armBargeIn_invariant s : armed_implies_speaking s -> armed_implies_speaking (armBargeIn s).
Proof.
  unfold armed_implies_speaking, armBargeIn.
  destruct (aiSpeaking s) eqn:E; [intros _ _ | rewrite E; auto].
  open_state s. simpl in E. exact E.
Qed.

Lemma playAnswerAudio_flags txt s :
  aiSpeaking (playAnswerAudio txt s) = true /\ bargeInEnabled (playAnswerAudio txt s) = false.
Proof. open_state s. destruct recognition0; split; reflexivity. Qed.

Lemma fallbackSpeak_invariant txt s :
  armed_implies_speaking s -> armed_implies_speaking (fallbackSpeak txt onAISpeechEnd s).
Proof.
  unfold fallbackSpeak, armed_implies_speaking. destruct (hasSpeechSynthesis s) eqn:E.
  - open_state s. exact (fun H => H).
  - intros _. destruct (onAISpeechEnd_flags s) as [_ ->]. discriminate.
Qed.

Lemma handleQuestionViaFetch_flags q s : same_flags s (handleQuestionViaFetch q s).
Proof. open_state s. split; reflexivity. Qed.

Lemma handleQuestion_flags q id s : same_flags s (handleQuestion q id s).
Proof.
  unfold handleQuestion.
  destruct (negb (JS.truthy q) || negb (JS.truthy (JS.trim q))); [split; reflexivity|].
  open_state s. destruct wsReady0; case_socket ws0; split; reflexivity.
Qed.

Lemma createWebSocket_flags s : same_flags s (createWebSocket s).
Proof. open_state s. case_socket ws0; split; reflexivity. Qed.

Lemma stopVAD_flags s : same_flags s (stopVAD s).
Proof.
  open_state s. destruct vadProcessor0, vadSource0, vadAudioCtx0; split; reflexivity.
Qed.

Lemma handleWSMessage_invariant msg s :
  armed_implies_speaking s -> armed_implies_speaking (handleWSMessage msg s).
Proof.
  unfold handleWSMessage. destruct (m_id msg) as [id|]; [|exact (fun H => H)].
  destruct (negb (JS.truthy id)); [exact (fun H => H)|].
  repeat case_decide.
  - exact (fun H => H).
  - intros _ _. apply playAnswerAudio_flags.
  - exact (fun H => H).
  - exact (fun H => H).
Qed.

Lemma stopAssistant_flags s :
  running s = true ->
  aiSpeaking (stopAssistant s) = false /\ bargeInEnabled (stopAssistant s) = false.
Proof.
  open_state s. simpl. intros ->.
  destruct recognition0, vadProcessor0, vadSource0, vadAudioCtx0, audio0, synth0, wsReady0;
    case_id currentReqId0; case_socket ws0; split; reflexivity.
Qed.

Lemma stopAssistant_invariant s :
  armed_implies_speaking s -> armed_implies_speaking (stopAssistant s).
Proof.
  destruct (running s) eqn:E.
  - intros _. unfold armed_implies_speaking.
    destruct (stopAssistant_flags s E) as [_ ->]. discriminate.
  - unfold stopAssistant. rewrite E. exact (fun H => H).
Qed.

Lemma startAssistant_flags s : same_flags s (startAssistant s).
Proof. open_state s. destruct running0, recog0; split; reflexivity. Qed.

Lemma startAssistant_resume_flags o s : same_flags s (startAssistant_resume o s).
Proof. open_state s. destruct o; case_socket ws0; split; reflexivity. Qed.

Lemma recognition_onresult_invariant raw id s :
  armed_implies_speaking s -> armed_implies_speaking (recognition_onresult raw id s).
Proof.
  unfold recognition_onresult. destruct (negb (JS.truthy (JS.trim raw))); [exact (fun H => H)|].
  intros H. destruct (aiSpeaking (set_userText (JS.trim raw) s)) eqn:E.
  - unfold armed_implies_speaking.
    destruct (stopSpeaking_flags false (set_userText (JS.trim raw) s)) as [_ Hb].
    set (s1 := stopSpeaking false _) in *. clearbody s1. open_state s1.
    simpl in *. congruence.
  - eapply same_flags_invariant; [apply handleQuestion_flags|].
    open_state s. exact H.
Qed.

Lemma onaudioprocess_invariant inputData result s :
  armed_implies_speaking s -> armed_implies_speaking (onaudioprocess inputData result s).
Proof.
  intros H. unfold onaudioprocess, onaudioprocess_push.
  destruct (negb (vadRunning s)); [exact H|].
  destruct (WINDOW <? _)%nat.
  - unfold onaudioprocess_resume.
    set (s1 := set_ring (ring s ++ inputData) s).
    assert (H1 : armed_implies_speaking s1) by (open_state s; exact H).
    clearbody s1.
    assert (H2 : armed_implies_speaking
                   match result with
                   | Some speechProb => if bargeIn speechProb s1 then stopSpeaking true s1 else s1
                   | None => s1
                   end).
    { destruct result as [p|]; [|exact H1]. destruct (bargeIn p s1); [|exact H1].
      unfold armed_implies_speaking. destruct (stopSpeaking_flags true s1) as [_ ->].
      discriminate. }
    revert H2. generalize (match result with
                   | Some speechProb => if bargeIn speechProb s1 then stopSpeaking true s1 else s1
                   | None => s1
                   end). intros s2. open_state s2. exact (fun H => H).
  - open_state s. exact H.
Qed.

Lemma run_callback_invariant a id s :
  armed_implies_speaking s -> armed_implies_speaking (run_callback a id s).
Proof.
  destruct a; simpl.
  - apply armBargeIn_invariant.
  - apply same_flags_invariant, handleQuestion_flags.
  - apply same_flags_invariant, createWebSocket_flags.
Qed.

Lemma fire_timer_invariant id s :
  armed_implies_speaking s -> armed_implies_speaking (fire_timer id s).
Proof.
  intros H. unfold fire_timer.
  destruct (min_due (timers s)) as [d|]; [|exact H].
  destruct (d <=? now s)%N; [|exact H].
  destruct (take_due d (timers s)) as [[a r]|]; [|exact H].
  apply run_callback_invariant. open_state s. exact H.
Qed.

Lemma step_invariant s e :
  armed_implies_speaking s -> armed_implies_speaking (step s e).
Proof.
  intros H. destruct e; simpl.
  - unfold micBtn_click. destruct (negb (running s)).
    + eapply same_flags_invariant; [apply startAssistant_flags|exact H].
    + apply stopAssistant_invariant, H.
  - eapply same_flags_invariant; [apply startAssistant_resume_flags|exact H].
  - open_state s. case_socket ws0; exact H.
  - open_state s. destruct detached; case_socket ws0; exact H.
  - open_state s. case_socket ws0; exact H.
  - destruct decoded as [msg|]; [apply handleWSMessage_invariant, H|exact H].
  - destruct (recognition s); [apply recognition_onresult_invariant, H|exact H].
  - unfold recognition_onend. destruct (recognition s); [|exact H].
    destruct (running s && negb (aiSpeaking s)); exact H.
  - apply onaudioprocess_invariant, H.
  - destruct o; cbv beta iota delta [playAnswerAudio_resume];
      try apply fallbackSpeak_invariant; exact H.
  - unfold utterance_onend, armed_implies_speaking.
    destruct (onAISpeechEnd_flags s) as [_ ->]. discriminate.
  - unfold audio_onended, armed_implies_speaking.
    destruct (onAISpeechEnd_flags (set_audio false (emit RevokeUrl s))) as [_ ->]. discriminate.
  - unfold audio_onerror, armed_implies_speaking.
    destruct (onAISpeechEnd_flags (set_audio false s)) as [_ ->]. discriminate.
  - destruct o as [a|]; simpl.
    + unfold armed_implies_speaking.
      destruct (playAnswerAudio_flags (JS.or_else a "No answer returned.")
                  (set_botText (JS.or_else a "No answer returned.") s)) as [-> _]. auto.
    + open_state s. exact H.
  - open_state s. exact H.
  - apply fire_timer_invariant, H.
Qed.

Lemma run_invariant es : forall s,
  armed_implies_speaking s -> armed_implies_speaking (run s es).
Proof.
  induction es as [|e es IH]; intros s H; simpl; [exact H|].
  apply IH, step_invariant, H.
Qed.

(** *** The voice-activity test *)

Lemma Qgtb_spec (x y : Q) : Qgtb x y = true <-> (y < x)%Q.
Proof.
  unfold Qgtb. rewrite Qgt_alt. destruct (x ?= y)%Q; split; congruence.
Qed.

(** A classified window that does not trigger the barge-in only empties the
    window buffer. *)
Lemma onaudioprocess_resume_quiet (result : option Q) (s : State) :
  match result with
  | Some speechProb => bargeIn speechProb s = false
  | None => True
  end ->
  onaudioprocess_resume result s = set_ring [] s.
Proof.
  unfold onaudioprocess_resume. destruct result as [p|]; [intros ->|]; reflexivity.
Qed.

(** While the assistant is silent, no classified window has any effect
    beyond the emptied buffer: the lower threshold is computed, and no
    reaction depends on it. *)
Lemma onaudioprocess_resume_not_speaking (result : option Q) (s : State) :
  aiSpeaking s = false -> onaudioprocess_resume result s = set_ring [] s.
Proof.
  intros Hs. apply onaudioprocess_resume_quiet.
  destruct result as [p|]; [|exact I]. unfold bargeIn. rewrite Hs. reflexivity.
Qed.

(** *** The partial accumulator and the page *)

Lemma append_assoc (a b c : string) : (a +:+ b) +:+ c = a +:+ (b +:+ c).
Proof.
  induction a as [|x a IH]; [reflexivity|].
  change (String x ((a +:+ b) +:+ c) = String x (a +:+ (b +:+ c))).
  rewrite IH. reflexivity.
Qed.

Lemma append_empty_r (a : string) : a +:+ "" = a.
Proof.
  induction a as [|x a IH]; [reflexivity|].
  change (String x (a +:+ "") = String x a). rewrite IH. reflexivity.
Qed.

Lemma or_else_Some_empty (a : string) : JS.or_else (Some a) "" = a.
Proof. destruct a; reflexivity. Qed.

Lemma handleWSMessage_partial (id : string) (txt : option string) (s : State) :
  JS.truthy id = true ->
  handleWSMessage (partial_frame id txt) s
  = let acc := accumulated id s +:+ JS.or_else txt "" in
    set_botText acc (set_partialBuffer (<[id := acc]> (partialBuffer s)) s).
Proof.
  intros Hid. unfold handleWSMessage, partial_frame. simpl. rewrite Hid. reflexivity.
Qed.

Lemma handleWSMessage_final (id : string) (txt : option string) (s : State) :
  JS.truthy id = true ->
  handleWSMessage (final_frame id txt) s
  = playAnswerAudio (JS.or_else txt (accumulated id s))
      (set_partialBuffer (delete id (partialBuffer s)) s).
Proof.
  intros Hid. unfold handleWSMessage, final_frame. simpl. rewrite Hid. reflexivity.
Qed.

Lemma accumulated_partial (id : string) (txt : option string) (s : State) :
  JS.truthy id = true ->
  accumulated id (handleWSMessage (partial_frame id txt) s)
  = accumulated id s +:+ JS.or_else txt "".
Proof.
  intros Hid. rewrite handleWSMessage_partial by exact Hid.
  unfold accumulated at 1. simpl. rewrite lookup_insert_eq. apply or_else_Some_empty.
Qed.

(** After the partial events of [id], the accumulator of [id] holds what it
    held before, followed by the fragments in their order. *)
Lemma accumulated_deliver (id : string) (fs : list (option string)) :
  JS.truthy id = true ->
  forall s, accumulated id (deliver (map (partial_frame id) fs) s)
            = accumulated id s +:+ concat_fragments fs.
Proof.
  intros Hid. induction fs as [|f fs IH]; intros s; simpl.
  - symmetry. apply append_empty_r.
  - unfold deliver in IH. rewrite IH, accumulated_partial by exact Hid.
    apply append_assoc.
Qed.

(** The page shows the running total. *)
Lemma botText_deliver (id : string) (fs : list (option string)) :
  JS.truthy id = true -> fs <> [] ->
  forall s, botText (deliver (map (partial_frame id) fs) s)
            = accumulated id (deliver (map (partial_frame id) fs) s).
Proof.
  intros Hid. induction fs as [|f fs IH]; intros Hne s; [contradiction|].
  destruct fs as [|g fs].
  - simpl. rewrite accumulated_partial by exact Hid.
    rewrite handleWSMessage_partial by exact Hid. reflexivity.
  - change (deliver (map (partial_frame id) (f :: g :: fs)) s)
      with (deliver (map (partial_frame id) (g :: fs)) (handleWSMessage (partial_frame id f) s)).
    apply IH. discriminate.
Qed.

Lemma playAnswerAudio_partialBuffer (txt : string) (s : State) :
  partialBuffer (playAnswerAudio txt s) = partialBuffer s.
Proof. open_state s. destruct recognition0; reflexivity. Qed.

Lemma playAnswerAudio_last (txt : string) (s : State) :
  last (trace (playAnswerAudio txt s)) = Some (FetchSpeak txt).
Proof. unfold playAnswerAudio, emit. simpl. apply last_snoc. Qed.

(** White space of one byte and of several bytes goes, at both ends and
    only there; a byte of a character that is no white space stays (the last
    byte of U+00E0 is the last byte of the no-break space). *)
Example trim_white_space :
  JS.trim (JS.nbsp +:+ " a " +:+ JS.nbsp +:+ "b"
           +:+ String (ascii_of_nat 226) (String (ascii_of_nat 128)
                 (String (ascii_of_nat 168) (String (ascii_of_nat 9) JS.nbsp))))
  = "a " +:+ JS.nbsp +:+ "b" /\
  JS.trim (String (ascii_of_nat 239) (String (ascii_of_nat 187)
             (String (ascii_of_nat 191) JS.nbsp))) = "" /\
  JS.trim (String (ascii_of_nat 195) (String (ascii_of_nat 160) " "))
  = String (ascii_of_nat 195) (String (ascii_of_nat 160) "").
Proof. repeat split. Qed.

Lemma trim_truthy (q : string) : JS.truthy (JS.trim q) = true -> JS.truthy q = true.
Proof. destruct q; [discriminate|reflexivity]. Qed.

Lemma handleQuestion_creates (q id : string) (s : State) :
  wsReady s = true -> JS.truthy (JS.trim q) = true ->
  partialBuffer (handleQuestion q id s) !! id = Some "".
Proof.
  intros Hready Hq. unfold handleQuestion.
  rewrite Hq, (trim_truthy q Hq). cbn [negb orb].
  open_state s. simpl in Hready. subst wsReady0.
  case_socket ws0; apply lookup_insert_eq.
Qed.

Lemma stopSpeaking_partialBuffer (b : bool) (s : State) :
  partialBuffer (stopSpeaking b s) = partialBuffer s.
Proof.
  open_state s.
  destruct b, recognition0, audio0, synth0, wsReady0;
    case_id currentReqId0; case_socket ws0; reflexivity.
Qed.

(** The scenario of two questions in a row, the first answer playing. *)
Example first_answer_playing_state :
  let s := run (init true true) Scenario.first_answer_playing in
  running s = true /\ aiSpeaking s = true /\ bargeInEnabled s = true /\
  wsReady s = true /\ ws s = Some OPEN /\ currentReqId s = Some "a2" /\
  partialBuffer s !! "a1" = None /\
  partialBuffer s !! "a2" = Some "New answer" /\ botText s = "New answer".
Proof. vm_compute. repeat split. Qed.

Lemma playAnswerAudio_botText (txt : string) (s : State) :
  botText (playAnswerAudio txt s) = botText s.
Proof. open_state s. destruct recognition0; reflexivity. Qed.

(** *** What [stopSpeaking] does *)

Lemma stopSpeaking_trace (b : bool) (s : State) :
  trace (stopSpeaking b s) = (trace s ++ stopSpeaking_calls b s)%list.
Proof.
  open_state s.
  destruct b, recognition0, audio0, synth0, wsReady0;
    case_id currentReqId0; case_socket ws0;
    cbn; rewrite <- ?app_assoc, ?app_nil_r; reflexivity.
Qed.

Lemma stopSpeaking_currentReqId (b : bool) (s : State) :
  currentReqId (stopSpeaking b s)
  = match cancelled_request s with Some _ => None | None => currentReqId s end.
Proof.
  open_state s.
  destruct b, recognition0, audio0, synth0, wsReady0;
    case_id currentReqId0; case_socket ws0; reflexivity.
Qed.

Lemma stopSpeaking_audio (b : bool) (s : State) : audio (stopSpeaking b s) = false.
Proof.
  open_state s.
  destruct b, recognition0, audio0, synth0, wsReady0;
    case_id currentReqId0; case_socket ws0; reflexivity.
Qed.

(** *** Handlers that do not arm the barge-in *)

Lemma calm_refl s : calm s s.
Proof. calm_now. Qed.

Lemma calm_trans s1 s2 s3 :
  timers s2 = timers s1 -> calm s1 s2 -> calm s2 s3 -> calm s1 s3.
Proof.
  intros Ht (Hn1 & Hb1 & _) (Hn2 & Hb2 & Ht2). unfold calm.
  rewrite Hn2, Hn1, <- Ht. split; [reflexivity|]. split.
  - destruct Hb2 as [-> | ->]; auto.
  - rewrite <- Hn1. exact Ht2.
Qed.

Lemma calm_now_le s s' : calm s s' -> (now s <= now s')%N.
Proof. intros [-> _]. reflexivity. Qed.

Lemma stopSpeaking_calm b s : calm s (stopSpeaking b s).
Proof.
  open_state s.
  destruct b, recognition0, audio0, synth0, wsReady0;
    case_id currentReqId0; case_socket ws0; calm_now.
Qed.

Lemma playAnswerAudio_calm txt s : calm s (playAnswerAudio txt s).
Proof. open_state s. destruct recognition0; calm_now. Qed.

Lemma onAISpeechEnd_calm s : calm s (onAISpeechEnd s).
Proof. open_state s. destruct recognition0; calm_now. Qed.

Lemma handleQuestion_calm q id s : calm s (handleQuestion q id s).
Proof.
  unfold handleQuestion.
  destruct (negb (JS.truthy q) || negb (JS.truthy (JS.trim q))); [apply calm_refl|].
  open_state s. destruct wsReady0; case_socket ws0; calm_now.
Qed.

Lemma createWebSocket_calm s : calm s (createWebSocket s).
Proof. open_state s. case_socket ws0; calm_now. Qed.

Lemma handleWSMessage_calm msg s : calm s (handleWSMessage msg s).
Proof.
  unfold handleWSMessage. destruct (m_id msg) as [id|]; [|apply calm_refl].
  destruct (negb (JS.truthy id)); [apply calm_refl|].
  repeat case_decide.
  - calm_now.
  - eapply calm_trans; [| |apply playAnswerAudio_calm]; [reflexivity|calm_now].
  - calm_now.
  - apply calm_refl.
Qed.

Lemma stopAssistant_calm s : calm s (stopAssistant s).
Proof.
  open_state s.
  destruct running0, recognition0, vadProcessor0, vadSource0, vadAudioCtx0, audio0, synth0,
    wsReady0; case_id currentReqId0; case_socket ws0; calm_now.
Qed.

Lemma startAssistant_calm s : calm s (startAssistant s).
Proof. open_state s. destruct running0, recog0; calm_now. Qed.

Lemma startAssistant_resume_calm o s : calm s (startAssistant_resume o s).
Proof. open_state s. destruct o; case_socket ws0; calm_now. Qed.

Lemma recognition_onresult_calm raw id s : calm s (recognition_onresult raw id s).
Proof.
  unfold recognition_onresult. destruct (negb (JS.truthy (JS.trim raw))); [apply calm_refl|].
  destruct (aiSpeaking (set_userText (JS.trim raw) s)) eqn:E.
  - open_state s.
    destruct recognition0, audio0, synth0, wsReady0;
      case_id currentReqId0; case_socket ws0; calm_now.
  - eapply calm_trans; [| |apply handleQuestion_calm]; [reflexivity|calm_now].
Qed.

Lemma onaudioprocess_calm inputData result s : calm s (onaudioprocess inputData result s).
Proof.
  unfold onaudioprocess, onaudioprocess_push.
  destruct (negb (vadRunning s)); [apply calm_refl|].
  destruct (WINDOW <? _)%nat; [|calm_now].
  unfold onaudioprocess_resume.
  set (s1 := set_ring (ring s ++ inputData) s).
  assert (H1 : calm s s1) by calm_now.
  assert (Ht : timers s1 = timers s) by reflexivity.
  clearbody s1.
  destruct result as [p|].
  - destruct (bargeIn p s1).
    + eapply calm_trans; [exact Ht|exact H1|].
      eapply calm_trans; [| apply stopSpeaking_calm | calm_now].
      open_state s1.
      destruct recognition0, audio0, synth0, wsReady0;
        case_id currentReqId0; case_socket ws0; reflexivity.
    + eapply calm_trans; [exact Ht|exact H1|calm_now].
  - eapply calm_trans; [exact Ht|exact H1|calm_now].
Qed.

Lemma take_due_spec d ts a r :
  take_due d ts = Some (a, r) -> (d, a) ∈ ts /\ (forall x, x ∈ r -> x ∈ ts).
Proof.
  revert a r. induction ts as [|[d' a'] ts IH]; intros a r; simpl; [discriminate|].
  destruct (d' =? d)%N eqn:E.
  - intros [= -> ->]. apply N.eqb_eq in E as ->. split; [left|intros x Hx; right; exact Hx].
  - destruct (take_due d ts) as [[a0 r0]|]; [|discriminate].
    intros [= -> <-]. destruct (IH a r0 eq_refl) as [Hin Hsub].
    split; [right; exact Hin|].
    intros x Hx. apply elem_of_cons in Hx as [->|Hx]; [left|right; apply Hsub, Hx].
Qed.

Lemma fire_timer_now id s : now (fire_timer id s) = now s.
Proof.
  unfold fire_timer.
  destruct (min_due (timers s)) as [d|]; [|reflexivity].
  destruct (d <=? now s)%N; [|reflexivity].
  destruct (take_due d (timers s)) as [[a r]|]; [|reflexivity].
  destruct a; cbv beta iota delta [run_callback].
  - unfold armBargeIn. destruct (aiSpeaking _); reflexivity.
  - exact (proj1 (handleQuestion_calm transcript id (set_timers r s))).
  - exact (proj1 (createWebSocket_calm (set_timers r s))).
Qed.

Create HintDb calm.

#[local] Hint Resolve calm_refl stopSpeaking_calm playAnswerAudio_calm onAISpeechEnd_calm
  handleQuestion_calm createWebSocket_calm handleWSMessage_calm stopAssistant_calm
  startAssistant_calm startAssistant_resume_calm recognition_onresult_calm
  onaudioprocess_calm : calm.

Lemma step_calm s e : handler_event e = true -> calm s (step s e).
Proof.
  destruct e; cbv beta iota delta [step handler_event]; intros He; try discriminate.
  - unfold micBtn_click. destruct (negb (running s)); auto with calm.
  - auto with calm.
  - open_state s. case_socket ws0; calm_now.
  - open_state s. destruct detached; case_socket ws0; calm_now.
  - open_state s. case_socket ws0; calm_now.
  - destruct decoded; cbv beta iota delta [ws_onmessage]; auto with calm.
  - destruct (recognition s); auto with calm.
  - unfold recognition_onend.
    open_state s. destruct recognition0, running0, aiSpeaking0; calm_now.
  - auto with calm.
  - open_state s. destruct o, synth0, recognition0; calm_now.
  - apply onAISpeechEnd_calm.
  - open_state s. destruct recognition0; calm_now.
  - open_state s. destruct recognition0; calm_now.
  - destruct o as [a|]; cbv beta iota zeta delta [handleQuestionViaFetch_resume];
      [|calm_now].
    eapply calm_trans; [| |apply playAnswerAudio_calm]; [reflexivity|calm_now].
Qed.

Lemma step_now_mono s e : (now s <= now (step s e))%N.
Proof.
  destruct (handler_event e) eqn:He; [apply calm_now_le, step_calm, He|].
  destruct e; try discriminate; cbv beta iota delta [step].
  - change (now (set_now (now s + dt)%N s)) with (now s + dt)%N. lia.
  - rewrite fire_timer_now. reflexivity.
Qed.

Lemma run_now_mono es : forall s, (now s <= now (run s es))%N.
Proof.
  induction es as [|e es IH]; intros s; simpl; [reflexivity|].
  etransitivity; [apply step_now_mono|apply IH].
Qed.

(** *** The dead zone *)

Section DeadZone.

(** The time before which the barge-in must stay disarmed. *)
Variable D : N.

Lemma calm_in_dead_zone s s' : calm s s' -> in_dead_zone D s -> in_dead_zone D s'.
Proof.
  intros (Hn & Hb & Ht) (Hd & Hno & Hle). unfold in_dead_zone. rewrite Hn.
  split; [destruct Hb as [-> | ->]; auto|]. split; [|exact Hle].
  destruct Ht as [-> | (a & k & -> & Hk)]; [exact Hno|].
  intros d Hin. apply elem_of_app in Hin as [Hin|Hin]; [apply Hno, Hin|].
  apply list_elem_of_singleton in Hin. injection Hin as -> <-.
  rewrite (Hk eq_refl). exact Hle.
Qed.

Lemma fire_timer_in_dead_zone id s :
  (now s < D)%N -> in_dead_zone D s -> in_dead_zone D (fire_timer id s).
Proof.
  intros Hnow H. unfold fire_timer.
  destruct (min_due (timers s)) as [d|]; [|exact H].
  destruct (d <=? now s)%N eqn:Hd; [|exact H]. apply N.leb_le in Hd.
  destruct (take_due d (timers s)) as [[a r]|] eqn:Ht; [|exact H].
  apply take_due_spec in Ht as [Hin Hsub].
  destruct H as (Hb & Hno & Hle).
  assert (H' : in_dead_zone D (set_timers r s)).
  { split; [exact Hb|]. split; [|exact Hle]. intros d' Hd'. apply Hno, Hsub, Hd'. }
  destruct a; cbv beta iota delta [run_callback].
  - exfalso. apply Hno in Hin. lia.
  - eapply calm_in_dead_zone; [apply handleQuestion_calm|exact H'].
  - eapply calm_in_dead_zone; [apply createWebSocket_calm|exact H'].
Qed.

Lemma step_in_dead_zone s e :
  (now (step s e) < D)%N -> in_dead_zone D s -> in_dead_zone D (step s e).
Proof.
  destruct (handler_event e) eqn:He; [intros _; apply calm_in_dead_zone, step_calm, He|].
  destruct e; try discriminate; cbv beta iota delta [step]; intros Hnow.
  - intros (Hb & Hno & Hle). split; [exact Hb|]. split; [exact Hno|].
    change (now (set_now (now s + dt)%N s)) with (now s + dt)%N. lia.
  - rewrite fire_timer_now in Hnow. apply fire_timer_in_dead_zone, Hnow.
Qed.

Lemma run_in_dead_zone es : forall s,
  (now (run s es) < D)%N -> in_dead_zone D s -> in_dead_zone D (run s es).
Proof.
  induction es as [|e es IH]; intros s Hnow H; simpl in *; [exact H|].
  apply IH; [exact Hnow|]. apply step_in_dead_zone; [|exact H].
  eapply N.le_lt_trans; [apply run_now_mono|exact Hnow].
Qed.

End DeadZone.

(** When an answer starts with no dead-zone callback of an earlier answer
    pending, no window triggers the barge-in during the next 350 ms, whatever
    happens in between and whatever the score. *)
Theorem dead_zone_without_stale_timer (s : State) (es : list Event) (speechProb : Q) :
  no_arm_before (now s + DEAD_ZONE) (timers s) ->
  (now (run (onAISpeechStart s) es) < now s + DEAD_ZONE)%N ->
  bargeIn speechProb (run (onAISpeechStart s) es) = false.
Proof.
  intros Hno Hnow.
  assert (H0 : in_dead_zone (now s + DEAD_ZONE) (onAISpeechStart s)).
  { split; [apply onAISpeechStart_flags|]. split.
    - assert (Ht : timers (onAISpeechStart s)
                   = (timers s ++ [((now s + DEAD_ZONE)%N, ArmBargeIn)])%list)
        by (open_state s; destruct recognition0; reflexivity).
      rewrite Ht. intros d Hin. apply elem_of_app in Hin as [Hin|Hin]; [apply Hno, Hin|].
      apply list_elem_of_singleton in Hin. injection Hin as ->. reflexivity.
    - assert (Hn : now (onAISpeechStart s) = now s)
        by (open_state s; destruct recognition0; reflexivity).
      rewrite Hn. reflexivity. }
  destruct (run_in_dead_zone _ es _ Hnow H0) as (Hb & _).
  unfold bargeIn. rewrite Hb. apply andb_false_intro1, andb_false_r.
Qed.

(** The first answer of a session: a window scored 0.9 that arrives 349 ms
    after the answer started does not interrupt it. *)
Example dead_zone_first_answer :
  bargeIn 0.9%Q
    (run (onAISpeechStart (run (init true true) (Scenario.started ++ [Result "range?" "a1"])))
         [SpeakResponse "Hello" AudioBytes; Elapse 349])
  = false.
Proof.
  apply dead_zone_without_stale_timer.
  - intros d Hin. vm_compute in Hin. inversion Hin.
  - vm_compute. reflexivity.
Qed.

(** *** What reads the accumulator *)

Lemma forget_set (id : string) (pb : gmap string string) (s : State) :
  forget id (set_partialBuffer pb s) = set_partialBuffer (delete id pb) s.
Proof. reflexivity. Qed.

Lemma transparent_blind (id : string) (h : State -> State) : transparent h -> blind id h.
Proof.
  intros T s pb1 pb2 H. rewrite !T, !forget_set, H. reflexivity.
Qed.

Lemma stopSpeaking_transparent (b : bool) : transparent (stopSpeaking b).
Proof.
  intros pb s. open_state s.
  destruct b, recognition0, audio0, synth0, wsReady0;
    case_id currentReqId0; case_socket ws0; reflexivity.
Qed.

Lemma onAISpeechEnd_transparent : transparent onAISpeechEnd.
Proof. intros pb s. open_state s. destruct recognition0; reflexivity. Qed.

Lemma playAnswerAudio_transparent (txt : string) : transparent (playAnswerAudio txt).
Proof. intros pb s. open_state s. destruct recognition0; reflexivity. Qed.

Lemma createWebSocket_transparent : transparent createWebSocket.
Proof. intros pb s. open_state s. case_socket ws0; reflexivity. Qed.

Lemma micBtn_click_transparent : transparent micBtn_click.
Proof.
  intros pb s. open_state s.
  destruct running0, recog0, recognition0, vadProcessor0, vadSource0, vadAudioCtx0, audio0,
    synth0, wsReady0; case_id currentReqId0; case_socket ws0; reflexivity.
Qed.

Lemma onaudioprocess_transparent (inputData : list Sample) (result : option Q) :
  transparent (onaudioprocess inputData result).
Proof.
  intros pb s. unfold onaudioprocess, onaudioprocess_push.
  change (vadRunning (set_partialBuffer pb s)) with (vadRunning s).
  destruct (negb (vadRunning s)); [reflexivity|].
  change (ring (set_partialBuffer pb s)) with (ring s).
  change (ring (set_ring (ring s ++ inputData) (set_partialBuffer pb s)))
    with (ring s ++ inputData)%list.
  change (ring (set_ring (ring s ++ inputData) s)) with (ring s ++ inputData)%list.
  destruct (WINDOW <? _)%nat; [|reflexivity].
  unfold onaudioprocess_resume.
  change (set_ring (ring s ++ inputData) (set_partialBuffer pb s))
    with (set_partialBuffer pb (set_ring (ring s ++ inputData) s)).
  generalize (set_ring (ring s ++ inputData) s). intros s1.
  destruct result as [p|]; [|reflexivity].
  change (bargeIn p (set_partialBuffer pb s1)) with (bargeIn p s1).
  destruct (bargeIn p s1); [|reflexivity].
  rewrite stopSpeaking_transparent. reflexivity.
Qed.

(** [handleQuestion] writes the entry of its own id and reads none. *)
Lemma handleQuestion_blind (id q i : string) : blind id (handleQuestion q i).
Proof.
  intros s pb1 pb2 H. unfold handleQuestion.
  destruct (negb (JS.truthy q) || negb (JS.truthy (JS.trim q)));
    [rewrite !forget_set, H; reflexivity|].
  assert (Hi : delete id (<[i:=""]> pb1) = delete id (<[i:=""]> pb2)).
  { destruct (decide (id = i)) as [->|Hne].
    - rewrite !delete_insert_eq. exact H.
    - rewrite !delete_insert_ne by exact Hne. rewrite H. reflexivity. }
  open_state s. destruct wsReady0; [case_socket ws0|];
    cbv beta iota zeta delta [forget]; cbn; rewrite ?Hi, ?H; reflexivity.
Qed.

(** A frame reads the entry of its own id only, and only when it is a
    partial or a final frame. *)
Lemma handleWSMessage_blind (id : string) (msg : Msg) :
  m_id msg <> Some id \/
  (m_type msg <> Some "partial" /\ m_type msg <> Some "final") ->
  blind id (handleWSMessage msg).
Proof.
  intros Hne s pb1 pb2 H. unfold handleWSMessage.
  destruct (m_id msg) as [i|]; [|rewrite !forget_set, H; reflexivity].
  destruct (negb (JS.truthy i)); [rewrite !forget_set, H; reflexivity|].
  change (partialBuffer (set_partialBuffer pb1 s)) with pb1.
  change (partialBuffer (set_partialBuffer pb2 s)) with pb2.
  destruct Hne as [Hne|[Hp Hf]].
  - assert (Hi : i <> id) by congruence.
    assert (Hacc : accumulated i (set_partialBuffer pb1 s)
                   = accumulated i (set_partialBuffer pb2 s)).
    { unfold accumulated.
      change (partialBuffer (set_partialBuffer pb1 s)) with pb1.
      change (partialBuffer (set_partialBuffer pb2 s)) with pb2.
      rewrite <- (lookup_delete_ne pb1 id i), <- (lookup_delete_ne pb2 id i) by congruence.
      rewrite H. reflexivity. }
    rewrite Hacc. generalize (accumulated i (set_partialBuffer pb2 s)). intros acc.
    destruct (decide (m_type msg = Some "partial")).
    { cbv beta zeta.
      change (forget id (set_botText ?t (set_partialBuffer ?pb (set_partialBuffer _ s))))
        with (set_botText t (set_partialBuffer (delete id pb) s)).
      rewrite !delete_insert_ne by congruence. rewrite H. reflexivity. }
    destruct (decide (m_type msg = Some "final")).
    { cbv beta zeta.
      change (set_partialBuffer (delete i pb1) (set_partialBuffer pb1 s))
        with (set_partialBuffer (delete i pb1) s).
      change (set_partialBuffer (delete i pb2) (set_partialBuffer pb2 s))
        with (set_partialBuffer (delete i pb2) s).
      rewrite !playAnswerAudio_transparent, !forget_set.
      rewrite (delete_delete pb1 id i), (delete_delete pb2 id i), H. reflexivity. }
    destruct (decide (m_type msg = Some "error")).
    { change (forget id (set_botText ?t (set_partialBuffer ?pb s)))
        with (set_botText t (set_partialBuffer (delete id pb) s)).
      rewrite H. reflexivity. }
    rewrite !forget_set, H. reflexivity.
  - destruct (decide (m_type msg = Some "partial")); [contradiction|].
    destruct (decide (m_type msg = Some "final")); [contradiction|].
    destruct (decide (m_type msg = Some "error")).
    { change (forget id (set_botText ?t (set_partialBuffer ?pb s)))
        with (set_botText t (set_partialBuffer (delete id pb) s)).
      rewrite H. reflexivity. }
    rewrite !forget_set, H. reflexivity.
Qed.

Lemma recognition_onresult_blind (id raw i : string) : blind id (recognition_onresult raw i).
Proof.
  intros s pb1 pb2 H. unfold recognition_onresult.
  destruct (negb (JS.truthy (JS.trim raw))); [rewrite !forget_set, H; reflexivity|].
  generalize (JS.trim raw). intros t.
  change (aiSpeaking (set_userText t (set_partialBuffer pb1 s))) with (aiSpeaking s).
  change (aiSpeaking (set_userText t (set_partialBuffer pb2 s))) with (aiSpeaking s).
  change (set_userText t (set_partialBuffer pb1 s))
    with (set_partialBuffer pb1 (set_userText t s)).
  change (set_userText t (set_partialBuffer pb2 s))
    with (set_partialBuffer pb2 (set_userText t s)).
  destruct (aiSpeaking s).
  - rewrite !stopSpeaking_transparent.
    change (forget id (setTimeout ?a ?d (set_partialBuffer ?pb ?x)))
      with (setTimeout a d (set_partialBuffer (delete id pb) x)).
    rewrite H. reflexivity.
  - apply handleQuestion_blind, H.
Qed.

Lemma fire_timer_blind (id i : string) : blind id (fire_timer i).
Proof.
  intros s pb1 pb2 H. unfold fire_timer.
  change (timers (set_partialBuffer pb1 s)) with (timers s).
  change (timers (set_partialBuffer pb2 s)) with (timers s).
  change (now (set_partialBuffer pb1 s)) with (now s).
  change (now (set_partialBuffer pb2 s)) with (now s).
  destruct (min_due (timers s)) as [d|]; [|rewrite !forget_set, H; reflexivity].
  destruct (d <=? now s)%N; [|rewrite !forget_set, H; reflexivity].
  destruct (take_due d (timers s)) as [[a r]|]; [|rewrite !forget_set, H; reflexivity].
  change (set_timers r (set_partialBuffer pb1 s))
    with (set_partialBuffer pb1 (set_timers r s)).
  change (set_timers r (set_partialBuffer pb2 s))
    with (set_partialBuffer pb2 (set_timers r s)).
  destruct a; cbv beta iota delta [run_callback].
  - apply (transparent_blind id armBargeIn); [|exact H].
    intros pb x. open_state x. destruct aiSpeaking0; reflexivity.
  - apply handleQuestion_blind, H.
  - apply (transparent_blind id _ createWebSocket_transparent), H.
Qed.

(** The events that are no inbound frame, no transcript and no timer are
    handled without a look at the accumulator. *)
Lemma step_transparent (e : Event) :
  match e with
  | WsMessage (Some _) | Result _ _ | TimerFires _ => True
  | _ => transparent (fun s => step s e)
  end.
Proof.
  destruct e as [ |o| |detached| |[msg|]|raw i| |inputData result|answerText o| | | |o|dt|i];
    try exact I; cbv beta iota delta [step]; intros pb s.
  - apply micBtn_click_transparent.
  - open_state s. destruct o; case_socket ws0; reflexivity.
  - open_state s. case_socket ws0; reflexivity.
  - open_state s. destruct detached; case_socket ws0; reflexivity.
  - open_state s. case_socket ws0; reflexivity.
  - reflexivity.
  - open_state s. destruct recognition0, running0, aiSpeaking0; reflexivity.
  - apply onaudioprocess_transparent.
  - open_state s. destruct o, synth0, recognition0; reflexivity.
  - apply onAISpeechEnd_transparent.
  - open_state s. destruct recognition0; reflexivity.
  - open_state s. destruct recognition0; reflexivity.
  - destruct o as [a|]; cbv beta iota zeta delta [handleQuestionViaFetch_resume];
      [|reflexivity].
    change (set_botText ?t (set_partialBuffer pb s))
      with (set_partialBuffer pb (set_botText t s)).
    apply playAnswerAudio_transparent.
  - reflexivity.
Qed.

(** An event that is not a partial or a final frame of [id] is handled
    without reading the accumulator entry of [id]. *)
Lemma step_blind (id : string) (e : Event) :
  reads_entry id e = false -> blind id (fun s => step s e).
Proof.
  intros He. pose proof (step_transparent e) as T.
  destruct e as [ |o| |detached| |[msg|]|raw i| |inputData result|answerText o| | | |o|dt|i];
    try exact (transparent_blind id _ T);
    cbv beta iota delta [step].
  - cbv beta iota delta [ws_onmessage].
    apply handleWSMessage_blind. cbv beta iota delta [reads_entry] in He.
    apply andb_false_iff in He as [He|He].
    + left. apply bool_decide_eq_false in He. exact He.
    + right. apply orb_false_iff in He as [Hp Hf].
      apply bool_decide_eq_false in Hp, Hf. split; assumption.
  - intros s pb1 pb2 H.
    change (recognition (set_partialBuffer pb1 s)) with (recognition s).
    change (recognition (set_partialBuffer pb2 s)) with (recognition s).
    destruct (recognition s); [apply recognition_onresult_blind, H|].
    rewrite !forget_set, H. reflexivity.
  - apply fire_timer_blind.
Qed.

(** *** What deletes an accumulator entry *)

Lemma transparent_buffer (h : State -> State) :
  transparent h -> forall s, partialBuffer (h s) = partialBuffer s.
Proof.
  intros T s. pose proof (T (partialBuffer s) s) as H.
  change (set_partialBuffer (partialBuffer s) s) with s in H.
  rewrite H. reflexivity.
Qed.

Lemma handleQuestion_keeps (id q i : string) (s : State) :
  is_Some (partialBuffer s !! id) -> is_Some (partialBuffer (handleQuestion q i s) !! id).
Proof.
  intros H. unfold handleQuestion.
  destruct (negb (JS.truthy q) || negb (JS.truthy (JS.trim q))); [exact H|].
  assert (Hi : is_Some (<[i:=""]> (partialBuffer s) !! id)).
  { apply lookup_insert_is_Some. destruct (decide (i = id)); [left|right]; auto. }
  open_state s. destruct wsReady0; [case_socket ws0|]; first [exact H | exact Hi].
Qed.

Lemma handleWSMessage_keeps (id : string) (msg : Msg) (s : State) :
  m_id msg <> Some id \/ m_type msg <> Some "final" ->
  is_Some (partialBuffer s !! id) -> is_Some (partialBuffer (handleWSMessage msg s) !! id).
Proof.
  intros Hne H. unfold handleWSMessage.
  destruct (m_id msg) as [i|]; [|exact H].
  destruct (negb (JS.truthy i)); [exact H|].
  destruct (decide (m_type msg = Some "partial")).
  { cbv beta zeta.
    change (partialBuffer (set_botText ?t (set_partialBuffer ?pb s))) with pb.
    apply lookup_insert_is_Some. destruct (decide (i = id)); [left|right]; auto. }
  destruct (decide (m_type msg = Some "final")) as [Hf|Hf].
  { destruct Hne as [Hne|Hne]; [|contradiction].
    rewrite playAnswerAudio_partialBuffer.
    change (partialBuffer (set_partialBuffer ?pb s)) with pb.
    rewrite lookup_delete_ne by congruence. exact H. }
  destruct (decide (m_type msg = Some "error")); exact H.
Qed.

(** An accumulator entry stays through every event but a final frame of its
    id. *)
Lemma step_keeps_entry (id : string) (e : Event) (s : State) :
  deletes_entry id e = false ->
  is_Some (partialBuffer s !! id) -> is_Some (partialBuffer (step s e) !! id).
Proof.
  intros He H. pose proof (step_transparent e) as T.
  destruct e as [ |o| |detached| |[msg|]|raw i| |inputData result|answerText o| | | |o|dt|i];
    try (rewrite (transparent_buffer _ T); exact H);
    cbv beta iota delta [step].
  - cbv beta iota delta [ws_onmessage]. apply handleWSMessage_keeps; [|exact H].
    cbv beta iota delta [deletes_entry] in He.
    apply andb_false_iff in He as [He|He]; apply bool_decide_eq_false in He; auto.
  - destruct (recognition s); [|exact H]. unfold recognition_onresult.
    destruct (negb (JS.truthy (JS.trim raw))); [exact H|].
    change (aiSpeaking (set_userText (JS.trim raw) s)) with (aiSpeaking s).
    destruct (aiSpeaking s).
    + change (partialBuffer (setTimeout ?a ?d ?x)) with (partialBuffer x).
      rewrite stopSpeaking_partialBuffer. exact H.
    + apply handleQuestion_keeps. exact H.
  - unfold fire_timer.
    destruct (min_due (timers s)) as [d|]; [|exact H].
    destruct (d <=? now s)%N; [|exact H].
    destruct (take_due d (timers s)) as [[a r]|]; [|exact H].
    destruct a; cbv beta iota delta [run_callback].
    + unfold armBargeIn. destruct (aiSpeaking _); exact H.
    + apply handleQuestion_keeps. exact H.
    + rewrite (transparent_buffer _ createWebSocket_transparent). exact H.
Qed.

(** *** The frames of a request *)

(** Without cancel messages the loop is [stream_loop]. *)
Lemma wire_loop_no_cancel (id : string) (items : list (bool * Generation.Chunk)) :
  forall acc0,
    Generation.wire_loop id (map (fun i => Generation.Yield i.1 i.2) items) acc0 false
    = Generation.stream_loop id items acc0.
Proof.
  induction items as [|[open chunk] items IH]; intros acc0; [reflexivity|].
  cbn [map Generation.wire_loop Generation.stream_loop fst snd].
  destruct open; cbn [negb]; [|reflexivity].
  destruct (JS.truthy (Generation.chunk_text chunk)); [|apply IH].
  rewrite IH. reflexivity.
Qed.

(** The loop sends partial frames with texts that are not empty, and
    cancelled frames.  When the controller is not aborted at the end, no
    cancel message was handled and the socket was open at every chunk: the
    frames are partial frames, and [accumulated] is its value before the loop
    followed by their texts. *)
Lemma wire_loop_spec (id : string) (steps : list Generation.Step) :
  forall acc0 ab0,
    Forall (fun m => Generation.is_partial id m \/ m = cancelled_frame id)
      (Generation.wire_loop id steps acc0 ab0).1.2 /\
    ((Generation.wire_loop id steps acc0 ab0).2 = false ->
     ab0 = false /\
     Forall (fun st => exists c, st = Generation.Yield true c) steps /\
     exists fs,
       (Generation.wire_loop id steps acc0 ab0).1.2 = map (partial_frame id) (map Some fs) /\
       Forall (fun t => JS.truthy t = true) fs /\
       (Generation.wire_loop id steps acc0 ab0).1.1
       = acc0 +:+ concat_fragments (map Some fs)).
Proof.
  induction steps as [|[open chunk|open] steps IH]; intros acc0 ab0.
  - split; [constructor|]. cbn. intros ->. split; [reflexivity|]. split; [constructor|].
    exists []. repeat split; [constructor|]. cbn. symmetry. apply append_empty_r.
  - cbn [Generation.wire_loop]. destruct open; cbn [negb].
    + destruct (JS.truthy (Generation.chunk_text chunk)) eqn:Ht.
      * destruct (IH (acc0 +:+ Generation.chunk_text chunk) ab0) as [Hall Hok].
        destruct (Generation.wire_loop id steps (acc0 +:+ Generation.chunk_text chunk) ab0)
          as [[acc sent] ab].
        cbn [fst snd] in *. split.
        -- constructor; [|exact Hall]. left. eexists. split; [exact Ht|reflexivity].
        -- intros Hab. destruct (Hok Hab) as (H0 & Hsteps & fs & Hs & Hf & Ha).
           split; [exact H0|]. split; [constructor; [eexists; reflexivity|exact Hsteps]|].
           exists (Generation.chunk_text chunk :: fs).
           split; [cbn [map]; rewrite Hs; reflexivity|].
           split; [constructor; assumption|].
           rewrite Ha. cbn [map concat_fragments]. rewrite or_else_Some_empty.
           apply append_assoc.
      * destruct (IH acc0 ab0) as [Hall Hok]. split; [exact Hall|].
        intros Hab. destruct (Hok Hab) as (H0 & Hsteps & Hfs).
        split; [exact H0|]. split; [constructor; [eexists; reflexivity|exact Hsteps]|exact Hfs].
    + split; [constructor|]. cbn. discriminate.
  - cbn [Generation.wire_loop].
    destruct (IH acc0 true) as [Hall Hok].
    destruct (Generation.wire_loop id steps acc0 true) as [[acc sent] ab].
    cbn [fst snd] in *. split.
    + apply Forall_app. split; [|exact Hall].
      destruct open; cbn [Generation.safeSend]; constructor; [right; reflexivity|constructor].
    + intros Hab. destruct (Hok Hab) as [? _]. discriminate.
Qed.

Lemma acks_cancelled (id : string) (cancels : list bool) :
  Forall (fun m => m = cancelled_frame id) (Generation.acks id cancels).
Proof.
  induction cancels as [|[] cancels IH]; cbn; [constructor| |exact IH].
  constructor; [reflexivity|exact IH].
Qed.

Lemma not_final_partial_or_cancelled (id : string) (l : list Msg) :
  Forall (fun m => Generation.is_partial id m \/ m = cancelled_frame id) l ->
  Forall not_final l.
Proof.
  intros H. eapply Forall_impl; [exact H|]. intros m [(t & _ & ->)| ->]; discriminate.
Qed.

Lemma not_final_cancelled (id : string) (l : list Msg) :
  Forall (fun m => m = cancelled_frame id) l -> Forall not_final l.
Proof. intros H. eapply Forall_impl; [exact H|]. intros m ->. discriminate. Qed.

(** A list without final frames does not split at a final frame. *)
Lemma not_final_split (l a b : list Msg) (m : Msg) :
  Forall not_final l -> l = (a ++ m :: b)%list -> m_type m = Some "final" -> False.
Proof.
  intros Hl -> Hm. apply Forall_app in Hl as [_ Hl].
  apply Forall_cons in Hl as [Hl _]. exact (Hl Hm).
Qed.

(** A list with one final frame splits at a final frame in one way. *)
Lemma final_split (l1 l3 a b : list Msg) (t m : Msg) :
  Forall not_final l1 -> Forall not_final l3 ->
  (l1 ++ t :: l3 = a ++ m :: b)%list -> m_type m = Some "final" ->
  a = l1 /\ m = t /\ b = l3.
Proof.
  intros H1 H3. revert a. induction H1 as [|x l1 Hx H1 IH]; intros a Heq Hm.
  - destruct a as [|y a]; cbn in Heq.
    + injection Heq as <- <-. repeat split.
    + injection Heq as <- Hl3. exfalso. exact (not_final_split _ _ _ _ H3 Hl3 Hm).
  - destruct a as [|y a]; cbn in Heq.
    + injection Heq as <- _. exfalso. exact (Hx Hm).
    + injection Heq as <- Heq. destruct (IH a Heq Hm) as (-> & -> & ->). repeat split.
Qed.

Lemma cancelled_terminal (id : string) : Generation.is_terminal id (cancelled_frame id).
Proof. split; [reflexivity|]. right. left. reflexivity. Qed.

Lemma ending_terminal (id : string) (e : Generation.StreamEnd) (ab : bool) (acc : string) :
  Generation.is_terminal id (Generation.ending id e ab acc).
Proof.
  destruct e as [|[] msg]; [destruct ab| |]; (split; [reflexivity|]); auto.
Qed.

(** A cancel message handled with the socket open, after chunks that found
    the socket open: the loop has sent partial frames, the cancelled frame
    follows, and the loop goes on with the controller aborted. *)
Lemma wire_loop_cancel (id : string) (before after : list Generation.Step) :
  Forall (fun st => exists c, st = Generation.Yield true c) before ->
  forall acc0 ab0, exists ps acc1,
    Forall (Generation.is_partial id) ps /\
    Generation.wire_loop id (before ++ Generation.CancelMsg true :: after) acc0 ab0
    = let '(acc, frames, ab) := Generation.wire_loop id after acc1 true in
      (acc, (ps ++ cancelled_frame id :: frames)%list, ab).
Proof.
  induction 1 as [|st before [c ->] _ IH]; intros acc0 ab0.
  - exists [], acc0. split; [constructor|]. cbn [app Generation.wire_loop].
    destruct (Generation.wire_loop id after acc0 true) as [[acc sent] ab]. reflexivity.
  - cbn [app Generation.wire_loop negb].
    destruct (JS.truthy (Generation.chunk_text c)) eqn:Ht.
    + destruct (IH (acc0 +:+ Generation.chunk_text c) ab0) as (ps & acc1 & Hps & ->).
      exists (partial_frame id (Some (Generation.chunk_text c)) :: ps), acc1.
      split; [constructor; [eexists; split; [exact Ht|reflexivity]|exact Hps]|].
      destruct (Generation.wire_loop id after acc1 true) as [[acc sent] ab]. reflexivity.
    + apply IH.
Qed.

(** The frames of a request that is answered with a final frame: the frames
    before it, the final frame, the frames after it. *)
Lemma wire_final (id : string) (steps : list Generation.Step) (e : Generation.StreamEnd)
    (open : bool) (late : list bool) (a b : list Msg) (m : Msg) :
  Generation.wire id steps e open late = (a ++ m :: b)%list ->
  m_type m = Some "final" ->
  e = Generation.Completed /\
  Forall (fun st => exists c, st = Generation.Yield true c) steps /\
  Forall (Generation.is_partial id) a /\
  m = final_frame id (Some (JS.trim (concat_fragments (map m_text a)))) /\
  b = Generation.acks id late.
Proof.
  unfold Generation.wire.
  destruct (wire_loop_spec id steps "" false) as [Hall Hok].
  destruct (Generation.wire_loop id steps "" false) as [[acc sent] ab].
  cbn [fst snd] in *. intros Heq Hm.
  pose proof (not_final_partial_or_cancelled id sent Hall) as Hsent.
  pose proof (not_final_cancelled id _ (acks_cancelled id late)) as Hlate.
  assert (Hno : forall l, Forall not_final l ->
                  (sent ++ l ++ Generation.acks id late)%list = (a ++ m :: b)%list -> False).
  { intros l Hl Hsplit. refine (not_final_split _ _ _ _ _ Hsplit Hm).
    apply Forall_app. split; [exact Hsent|]. apply Forall_app. split; assumption. }
  destruct open; cbn [Generation.safeSend] in Heq;
    [|exfalso; exact (Hno [] (List.Forall_nil _) Heq)].
  assert (Hend : m_type (Generation.ending id e ab acc) = Some "final" ->
                 e = Generation.Completed /\ ab = false).
  { destruct e as [|[] msg]; cbn [Generation.ending]; [|discriminate|discriminate].
    destruct ab; [discriminate|]. intros _. split; reflexivity. }
  destruct (final_split _ _ _ _ _ _ Hsent Hlate Heq Hm) as (-> & -> & ->).
  destruct (Hend Hm) as [-> ->].
  destruct (Hok eq_refl) as (_ & Hsteps & fs & -> & Hf & ->).
  split; [reflexivity|]. split; [exact Hsteps|]. split.
  - clear -Hf. induction Hf as [|t fs Ht _ IH]; constructor; [|exact IH].
    exists t. split; [exact Ht|reflexivity].
  - split; [|reflexivity]. cbn [Generation.ending]. do 3 f_equal.
    rewrite map_map. cbn [m_text partial_frame]. rewrite map_id. reflexivity.
Qed.

(** After the final frame of a request the server sends nothing but
    acknowledgements of cancel messages. *)
Lemma served_after_final (id : string) (fs a b : list Msg) (m : Msg) :
  served id fs -> fs = (a ++ m :: b)%list -> m_type m = Some "final" ->
  Forall (fun m' => m' = cancelled_frame id) b.
Proof.
  intros [(steps & e & open & late & ->)|(early & txt & open & late & ->)] Heq Hm.
  - destruct (wire_final id steps e open late a b m Heq Hm) as (_ & _ & _ & _ & ->).
    apply acks_cancelled.
  - unfold Generation.wire_whole in Heq.
    pose proof (not_final_cancelled id _ (acks_cancelled id early)) as Hearly.
    pose proof (not_final_cancelled id _ (acks_cancelled id late)) as Hlate.
    destruct open; cbn [Generation.safeSend app] in Heq.
    + destruct (final_split _ _ _ _ _ _ Hearly Hlate Heq Hm) as (_ & _ & ->).
      apply acks_cancelled.
    + exfalso. refine (not_final_split _ _ _ _ _ Heq Hm).
      apply Forall_app. split; assumption.
Qed.

(** ** The claims *)

(** C1 as stated fails.  The first answer is playing, armed, while the
    request ["a2"] streams; a window scored 0.9 triggers the barge-in: the
    cancel for ["a2"] is sent and the active id is reset, but the accumulator
    entry of ["a2"] is still there.  And when the channel has closed while an
    answer plays, the barge-in sends no cancel and the active id stays. *)
Lemma C1_counterexample :
  (aiSpeaking (run (init true true) Scenario.first_answer_playing) = true /\
   bargeInEnabled (run (init true true) Scenario.first_answer_playing) = true /\
   currentReqId (run (init true true) Scenario.first_answer_playing) = Some "a2" /\
   bargeIn 0.9%Q (run (init true true) Scenario.first_answer_playing) = true /\
   currentReqId (step (run (init true true) Scenario.first_answer_playing)
                   Scenario.loud_window) = None /\
   partialBuffer (step (run (init true true) Scenario.first_answer_playing)
                    Scenario.loud_window) !! "a2" = Some "New answer") /\
  (bargeIn 0.9%Q (run (init true true) Scenario.speaking_armed_offline) = true /\
   currentReqId (run (init true true) Scenario.speaking_armed_offline) = Some "a1" /\
   trace (step (run (init true true) Scenario.speaking_armed_offline) Scenario.loud_window)
   = (trace (run (init true true) Scenario.speaking_armed_offline)
      ++ [SynthCancel; AudioPause; RecStart])%list /\
   currentReqId (step (run (init true true) Scenario.speaking_armed_offline)
                   Scenario.loud_window) = Some "a1").
Proof. vm_compute. repeat split. Qed.

(** C1, as the script has it: when the barge-in test passes, the handler
    calls, in this order, [speechSynthesis.cancel()] (if the browser has it)
    and [audio.pause()] (if an audio element plays); then, provided the flag
    [wsReady] is set and an active request id is set, it calls [ws.send] with
    a cancel for that id and resets the id; and it calls
    [recognition.start()] (if there is a recogniser).  The cancel frame goes
    out only when the socket is open: a socket that is closing or closed
    drops it, what a missing or connecting socket throws is caught, and the
    id is reset all the same.  Without the flag or without an id, [ws.send]
    is not called and the id stays as it is.  Both speech flags are reset, no
    audio element is left playing, and the accumulator is left as it is. *)
Theorem C1_barge_in_effects (speechProb : Q) (s : State) :
  bargeIn speechProb s = true ->
  let s' := onaudioprocess_resume (Some speechProb) s in
  trace s'
  = (trace s
     ++ (if hasSpeechSynthesis s then [SynthCancel] else [])
     ++ (if audio s then [AudioPause] else [])
     ++ match cancelled_request s with
        | Some id => if bool_decide (ws s = Some OPEN) then [WsSend (Cancel id)] else []
        | None => []
        end
     ++ (if recognition s then [RecStart] else []))%list /\
  currentReqId s' = match cancelled_request s with Some _ => None | None => currentReqId s end /\
  partialBuffer s' = partialBuffer s /\
  aiSpeaking s' = false /\ bargeInEnabled s' = false /\ audio s' = false.
Proof.
  intros H s'. unfold s', onaudioprocess_resume. rewrite H.
  change (trace (set_ring [] (stopSpeaking true s))) with (trace (stopSpeaking true s)).
  change (currentReqId (set_ring [] (stopSpeaking true s)))
    with (currentReqId (stopSpeaking true s)).
  change (partialBuffer (set_ring [] (stopSpeaking true s)))
    with (partialBuffer (stopSpeaking true s)).
  change (aiSpeaking (set_ring [] (stopSpeaking true s)))
    with (aiSpeaking (stopSpeaking true s)).
  change (bargeInEnabled (set_ring [] (stopSpeaking true s)))
    with (bargeInEnabled (stopSpeaking true s)).
  change (audio (set_ring [] (stopSpeaking true s))) with (audio (stopSpeaking true s)).
  rewrite stopSpeaking_trace, stopSpeaking_currentReqId, stopSpeaking_partialBuffer,
    stopSpeaking_audio.
  destruct (stopSpeaking_flags true s) as [-> ->].
  repeat split.
Qed.

(** The answer of the request ["a1"] plays, armed, over the open channel:
    the cancel goes out between the pause and the restart of the recogniser.
    With the socket closing (the server has started the closing handshake,
    the close event is still to come) no frame goes out, and the id is reset
    all the same. *)
Lemma C1_witness :
  bargeIn 0.9%Q (run (init true true) Scenario.speaking_armed) = true /\
  trace (onaudioprocess_resume (Some 0.9%Q) (run (init true true) Scenario.speaking_armed))
  = (trace (run (init true true) Scenario.speaking_armed)
     ++ [SynthCancel; AudioPause; WsSend (Cancel "a1"); RecStart])%list /\
  currentReqId (set_ws (Some CLOSING) (run (init true true) Scenario.speaking_armed))
  = Some "a1" /\
  trace (onaudioprocess_resume (Some 0.9%Q)
           (set_ws (Some CLOSING) (run (init true true) Scenario.speaking_armed)))
  = (trace (run (init true true) Scenario.speaking_armed)
     ++ [SynthCancel; AudioPause; RecStart])%list /\
  currentReqId (onaudioprocess_resume (Some 0.9%Q)
                  (set_ws (Some CLOSING) (run (init true true) Scenario.speaking_armed)))
  = None.
Proof.
  split; [vm_compute; reflexivity|].
  split; [exact (proj1 (C1_barge_in_effects 0.9%Q
                          (run (init true true) Scenario.speaking_armed) eq_refl))|].
  split; [vm_compute; reflexivity|].
  pose proof (C1_barge_in_effects 0.9%Q
                (set_ws (Some CLOSING) (run (init true true) Scenario.speaking_armed))
                eq_refl) as (Htrace & Hid & _).
  split; [exact Htrace|exact Hid].
Defined.

(** C2 as stated fails.  The request ["a2"] is the active one and the page
    shows its text ["New"]; a late partial event of the superseded request
    ["a1"] replaces the text on the page. *)
Lemma C2_counterexample :
  currentReqId (run (init true true) Scenario.two_questions) = Some "a2" /\
  botText (run (init true true) Scenario.two_questions) = "New" /\
  botText (handleWSMessage (partial_frame "a1" (Some "lo"))
             (run (init true true) Scenario.two_questions)) = "Hello".
Proof. vm_compute. repeat split. Qed.

(** C2, as the script has it: what an inbound event does to the displayed
    answer depends on the event and on the accumulator of the event's own id,
    not on the active request id.  With a truthy id, a partial event displays
    the accumulated text of its id, an error event displays its message, and
    any other event (a final one included) leaves the display as it is; an
    event without a truthy id leaves it as it is. *)
Theorem C2_display_ignores_active_id (msg : Msg) (active : option string) (s : State) :
  botText (handleWSMessage msg (set_currentReqId active s))
  = botText (handleWSMessage msg s) /\
  botText (handleWSMessage msg s)
  = match m_id msg with
    | Some id =>
        if negb (JS.truthy id) then botText s
        else if decide (m_type msg = Some "partial")
             then accumulated id s +:+ JS.or_else (m_text msg) ""
        else if decide (m_type msg = Some "error")
             then "Error: " +:+ JS.or_else (m_error msg) "Unknown error"
        else botText s
    | None => botText s
    end.
Proof.
  unfold handleWSMessage. destruct (m_id msg) as [id|]; [|split; reflexivity].
  destruct (negb (JS.truthy id)); [split; reflexivity|].
  destruct (decide (m_type msg = Some "partial")) as [Hp|Hp]; [split; reflexivity|].
  destruct (decide (m_type msg = Some "final")) as [Hf|Hf].
  - rewrite !playAnswerAudio_botText.
    destruct (decide (m_type msg = Some "error")) as [He|He]; [congruence|].
    split; reflexivity.
  - destruct (decide (m_type msg = Some "error")); split; reflexivity.
Qed.

(** C3, on the scenario [Scenario.stale_dead_zone]: the second answer starts
    at 150 ms with the barge-in disarmed and its own dead-zone timer due at
    500 ms; at 350 ms the timer of the first answer runs and arms the
    barge-in, and a window scored 0.9 interrupts the second answer 200 ms
    after it started, its dead-zone timer still pending. *)
Theorem C3_stale_timer_arms_inside_dead_zone :
  let started := run (init true true) Scenario.second_answer_started in
  let s := run (init true true) Scenario.stale_dead_zone in
  (now started = 150%N /\ aiSpeaking started = true /\ bargeInEnabled started = false /\
   timers started = [(350%N, ArmBargeIn); (500%N, ArmBargeIn)]) /\
  (now s = 350%N /\ aiSpeaking s = true /\ bargeInEnabled s = true /\
   timers s = [(500%N, ArmBargeIn)]) /\
  bargeIn 0.9%Q s = true /\
  trace (step s Scenario.loud_window)
  = (trace s ++ [SynthCancel; WsSend (Cancel "a2"); RecStart])%list.
Proof. vm_compute. repeat split. Qed.

(** C4, as the script has it: the accumulator entry of a request is created,
    empty, when the request is sent over the ready channel, and it is deleted
    when the final event of the request is handled, and by no other event: a
    cancelled event and the local cancellation in [stopSpeaking] leave the
    accumulator as it is, and an entry stays through every event that is not
    a final frame of its id.  The entry is never read after its deletion: only the partial and the final
    frames of [id] read the entry of [id] (any other event is handled, apart
    from that entry, in the same way whatever the entry holds), and after the
    final frame of a request the server sends for it nothing but
    acknowledgements of cancel messages, which are no such frames and which
    the client drops as they come. *)
Theorem C4_accumulator_lifecycle (id : string) (s : State) :
  JS.truthy id = true ->
  (forall q, wsReady s = true -> JS.truthy (JS.trim q) = true ->
             partialBuffer (handleQuestion q id s) !! id = Some "") /\
  (forall txt, partialBuffer (handleWSMessage (final_frame id txt) s) !! id = None) /\
  partialBuffer (handleWSMessage (cancelled_frame id) s) = partialBuffer s /\
  (forall startListening,
     partialBuffer (stopSpeaking startListening s) = partialBuffer s) /\
  (forall e, deletes_entry id e = false ->
     is_Some (partialBuffer s !! id) -> is_Some (partialBuffer (step s e) !! id)) /\
  (forall e v, reads_entry id e = false ->
     forget id (step (set_partialBuffer (<[id := v]> (partialBuffer s)) s) e)
     = forget id (step s e)) /\
  (forall fs a m b,
     served id fs -> fs = (a ++ m :: b)%list -> m_type m = Some "final" ->
     Forall (fun m' => reads_entry id (WsMessage (Some m')) = false /\
                       forall s', handleWSMessage m' s' = s') b).
Proof.
  intros Hid. split; [|split; [|split; [|split; [|split; [|split]]]]].
  - intros q. apply handleQuestion_creates.
  - intros txt. rewrite handleWSMessage_final by exact Hid.
    rewrite playAnswerAudio_partialBuffer. simpl. apply lookup_delete_eq.
  - unfold handleWSMessage, cancelled_frame. simpl. rewrite Hid. reflexivity.
  - intros b. apply stopSpeaking_partialBuffer.
  - intros e. apply step_keeps_entry.
  - intros e v He.
    exact (step_blind id e He s (<[id := v]> (partialBuffer s)) (partialBuffer s)
             (delete_insert_eq _ _ _)).
  - intros fs a m b Hfs Heq Hm.
    eapply Forall_impl; [exact (served_after_final id fs a b m Hfs Heq Hm)|].
    intros m' ->. split.
    + cbv beta iota delta [reads_entry]. apply andb_false_iff. right. reflexivity.
    + intros s'. unfold handleWSMessage, cancelled_frame. cbn [m_id m_type].
      rewrite Hid. reflexivity.
Qed.

(** The entry of ["a1"] is created when the question is sent.  On the wire,
    the answer of one chunk and the acknowledgement of a late cancel message:
    the frame after the final one leaves the client as it is. *)
Lemma C4_witness :
  partialBuffer (handleQuestion "range?" "a1" (run (init true true) Scenario.started)) !! "a1"
  = Some "" /\
  Generation.wire "a1" [Generation.Yield true (Generation.Text "Hello")]
    Generation.Completed true [true]
  = [partial_frame "a1" (Some "Hello"); final_frame "a1" (Some "Hello");
     cancelled_frame "a1"] /\
  Forall (fun m' => reads_entry "a1" (WsMessage (Some m')) = false /\
                    forall s', handleWSMessage m' s' = s')
    [cancelled_frame "a1"].
Proof.
  pose proof (C4_accumulator_lifecycle "a1" (run (init true true) Scenario.started) eq_refl)
    as (Hcreate & _ & _ & _ & _ & _ & Hafter).
  split; [apply Hcreate; vm_compute; reflexivity|].
  split; [reflexivity|].
  apply (Hafter (Generation.wire "a1" [Generation.Yield true (Generation.Text "Hello")]
                   Generation.Completed true [true])
           [partial_frame "a1" (Some "Hello")] (final_frame "a1" (Some "Hello"))
           [cancelled_frame "a1"]).
  - left. eexists _, _, _, _. reflexivity.
  - reflexivity.
  - reflexivity.
Defined.

(** C4 as stated fails.  The request ["a2"] is cancelled by a barge-in and
    the server acknowledges with a cancelled event: the entry of ["a2"] is
    still in the accumulator.  The request ["a1"] ends in an error event: its
    entry is still in the accumulator. *)
Lemma C4_counterexample :
  In (WsSend (Cancel "a2"))
     (trace (run (init true true)
               (Scenario.first_answer_playing
                  ++ [Scenario.loud_window; Scenario.cancelled "a2"]))) /\
  partialBuffer (run (init true true)
                   (Scenario.first_answer_playing
                      ++ [Scenario.loud_window; Scenario.cancelled "a2"])) !! "a2"
  = Some "New answer" /\
  partialBuffer (run (init true true)
                   (Scenario.started
                      ++ [Result "range?" "a1"; Scenario.error "a1" "overloaded"])) !! "a1"
  = Some "".
Proof. vm_compute. split; [tauto|]. split; reflexivity. Qed.

(** C5: starting from an empty accumulator for [id], the partial events of
    [id] leave in the accumulator (and on the page) their fragments put end to
    end in order of arrival; a final event of [id] without text then hands
    that concatenation to the playback, and the accumulator entry of [id] is
    removed. *)
Theorem C5_partials_then_final
    (id : string) (fs : list (option string)) (txt : option string) (s : State) :
  JS.truthy id = true ->
  accumulated id s = "" ->
  JS.falsy txt = true ->
  let s1 := deliver (map (partial_frame id) fs) s in
  let s2 := handleWSMessage (final_frame id txt) s1 in
  accumulated id s1 = concat_fragments fs /\
  (fs <> [] -> botText s1 = concat_fragments fs) /\
  s2 = playAnswerAudio (concat_fragments fs)
         (set_partialBuffer (delete id (partialBuffer s1)) s1) /\
  partialBuffer s2 !! id = None /\
  last (trace s2) = Some (FetchSpeak (concat_fragments fs)).
Proof.
  intros Hid Hempty Htxt s1 s2.
  assert (Hacc : accumulated id s1 = concat_fragments fs).
  { unfold s1. rewrite accumulated_deliver by exact Hid. rewrite Hempty. reflexivity. }
  assert (Hfinal : s2 = playAnswerAudio (concat_fragments fs)
                          (set_partialBuffer (delete id (partialBuffer s1)) s1)).
  { unfold s2. rewrite handleWSMessage_final by exact Hid. rewrite Hacc.
    destruct txt as [t|]; simpl in *; [|reflexivity].
    destruct (JS.truthy t); [discriminate|reflexivity]. }
  split; [exact Hacc|]. split.
  - intros Hne. unfold s1. rewrite botText_deliver by assumption. exact Hacc.
  - split; [exact Hfinal|]. rewrite Hfinal. split.
    + rewrite playAnswerAudio_partialBuffer. simpl. apply lookup_delete_eq.
    + apply playAnswerAudio_last.
Qed.

(** The request ["a1"] is sent, the server streams ["Hel"], ["lo"] and a
    final event with an empty text: ["Hello"] is played. *)
Lemma C5_witness :
  last (trace (handleWSMessage (final_frame "a1" (Some ""))
                 (deliver (map (partial_frame "a1") [Some "Hel"; Some "lo"])
                    (run (init true true) (Scenario.started ++ [Result "range?" "a1"])))))
  = Some (FetchSpeak "Hello").
Proof.
  exact (proj2 (proj2 (proj2 (proj2
    (C5_partials_then_final "a1" [Some "Hel"; Some "lo"] (Some "")
       (run (init true true) (Scenario.started ++ [Result "range?" "a1"]))
       eq_refl eq_refl eq_refl))))).
Defined.

(** C6: in every state reachable from the loaded script, [bargeInEnabled]
    implies [aiSpeaking]; speaking-start, speaking-end, stop-speaking, the
    dead-zone callback, stop-assistant and every other handler of the event
    loop preserve the implication. *)
Theorem C6_bargeInEnabled_implies_aiSpeaking :
  (forall synth recog es, armed_implies_speaking (run (init synth recog) es)) /\
  (forall s, armed_implies_speaking s ->
     armed_implies_speaking (onAISpeechStart s) /\
     armed_implies_speaking (onAISpeechEnd s) /\
     (forall startListening, armed_implies_speaking (stopSpeaking startListening s)) /\
     armed_implies_speaking (armBargeIn s) /\
     armed_implies_speaking (stopAssistant s) /\
     (forall e, armed_implies_speaking (step s e))).
Proof.
  split.
  - intros synth recog es. apply run_invariant. discriminate.
  - intros s H. unfold armed_implies_speaking at 2 3 4.
    repeat split.
    + intros _. apply onAISpeechStart_flags.
    + destruct (onAISpeechEnd_flags s) as [_ ->]. discriminate.
    + intros b. destruct (stopSpeaking_flags b s) as [_ ->]. discriminate.
    + apply armBargeIn_invariant, H.
    + apply stopAssistant_invariant, H.
    + intros e. apply step_invariant, H.
Qed.

Lemma C6_witness :
  bargeInEnabled (run (init true true) Scenario.speaking_armed) = true /\
  aiSpeaking (run (init true true) Scenario.speaking_armed) = true /\
  armed_implies_speaking (armBargeIn (run (init true true) Scenario.speaking_armed)) /\
  armed_implies_speaking (stopAssistant (run (init true true) Scenario.speaking_armed)).
Proof.
  split; [vm_compute; reflexivity|]. split; [vm_compute; reflexivity|].
  pose proof (proj2 C6_bargeInEnabled_implies_aiSpeaking
                (run (init true true) Scenario.speaking_armed)
                (proj1 C6_bargeInEnabled_implies_aiSpeaking true true Scenario.speaking_armed))
    as (_ & _ & _ & Harm & Hstop & _).
  exact (conj Harm Hstop).
Defined.

(** C7: when capture ends on its own, [recognition.onend] calls
    [recognition.start()] if and only if the session is running and the
    assistant is not speaking; otherwise it calls nothing. *)
Theorem C7_restart_on_end (s : State) (Hattached : recognition s = true) :
  (trace (recognition_onend s) = (trace s ++ [RecStart])%list
   <-> running s = true /\ aiSpeaking s = false) /\
  (recognition_onend s = s <-> ~ (running s = true /\ aiSpeaking s = false)).
Proof.
  assert (Hne : (trace s ++ [RecStart])%list <> trace s).
  { intros E. apply (f_equal (@length _)) in E. rewrite length_app in E. simpl in E. lia. }
  unfold recognition_onend. rewrite Hattached.
  destruct (running s) eqn:Hr, (aiSpeaking s) eqn:Hs; cbn [andb negb];
    (split; split);
    first [ intros [? ?]; discriminate
          | intros _ [? ?]; discriminate
          | intros _; reflexivity
          | intros _; split; reflexivity
          | intros E; symmetry in E; contradiction
          | intros Hn; exfalso; apply Hn; split; reflexivity
          | intros E; apply (f_equal trace) in E; contradiction ].
Qed.

Lemma C7_witness :
  recognition (run (init true true) Scenario.started) = true /\
  trace (recognition_onend (run (init true true) Scenario.started))
  = (trace (run (init true true) Scenario.started) ++ [RecStart])%list.
Proof.
  split; [vm_compute; reflexivity|].
  apply (proj1 (C7_restart_on_end (run (init true true) Scenario.started) eq_refl)).
  split; vm_compute; reflexivity.
Defined.

(** C8: [stopAssistant] is idempotent.  A second call in a row returns at its
    first line: it leaves the whole state as the first call left it, the
    record of browser calls included (nothing is released twice), and nothing
    is thrown. *)
Theorem C8_stopAssistant_idempotent (s : State) :
  stopAssistant (stopAssistant s) = stopAssistant s /\
  trace (stopAssistant (stopAssistant s)) = trace (stopAssistant s) /\
  running (stopAssistant s) = false.
Proof.
  assert (Hstopped : running (stopAssistant s) = false).
  { destruct (running s) eqn:E.
    - open_state s. simpl in E. subst running0.
      destruct recognition0, vadProcessor0, vadSource0, vadAudioCtx0, audio0, synth0,
        wsReady0; case_id currentReqId0; case_socket ws0; reflexivity.
    - unfold stopAssistant. rewrite E. exact E. }
  assert (Hsame : stopAssistant (stopAssistant s) = stopAssistant s).
  { unfold stopAssistant at 1. rewrite Hstopped. reflexivity. }
  rewrite Hsame. auto.
Qed.

(** C9: the monitor compares the score of a classified window with 0.80 while
    the assistant speaks and with 0.65 otherwise.  While the assistant speaks
    with the barge-in armed, speech is reported (the barge-in test passes and
    [stopSpeaking(true)] runs, which ends the speaking state) exactly for a
    score strictly above 0.80; a window whose score is at or below the
    threshold changes nothing but the emptied buffer.  While the assistant
    does not speak the threshold is 0.65 and the test, which asks for
    [aiSpeaking], passes for no score: no window reports speech then, so that
    a window that does more than emptying the buffer has a score strictly
    above the threshold in either state. *)
Theorem C9_state_dependent_threshold (s : State) (speechProb : Q) :
  threshold s = (if aiSpeaking s then 0.8 else 0.65)%Q /\
  (bargeIn speechProb s = true <->
   aiSpeaking s = true /\ bargeInEnabled s = true /\ (0.8 < speechProb)%Q) /\
  (bargeIn speechProb s = true -> (threshold s < speechProb)%Q) /\
  (aiSpeaking s = true -> bargeInEnabled s = true -> (0.8 < speechProb)%Q ->
   onaudioprocess_resume (Some speechProb) s = set_ring [] (stopSpeaking true s) /\
   aiSpeaking (onaudioprocess_resume (Some speechProb) s) = false /\
   onaudioprocess_resume (Some speechProb) s <> set_ring [] s) /\
  ((speechProb <= threshold s)%Q ->
   onaudioprocess_resume (Some speechProb) s = set_ring [] s) /\
  (aiSpeaking s = false ->
   threshold s = 0.65%Q /\
   forall result, onaudioprocess_resume result s = set_ring [] s) /\
  (forall result,
     onaudioprocess_resume result s <> set_ring [] s ->
     exists p, result = Some p /\ (threshold s < p)%Q).
Proof.
  assert (Hiff : forall p, bargeIn p s = true <->
            aiSpeaking s = true /\ bargeInEnabled s = true /\ (0.8 < p)%Q).
  { intros p. unfold bargeIn, threshold.
    destruct (aiSpeaking s); cbn [andb];
      [|split; [discriminate|intros (H & _); discriminate]].
    destruct (bargeInEnabled s); cbn [andb];
      [|split; [discriminate|intros (_ & H & _); discriminate]].
    rewrite Qgtb_spec. split; [intros H; repeat split; exact H|intros (_ & _ & H); exact H]. }
  assert (Hgt : forall p, bargeIn p s = true -> (threshold s < p)%Q).
  { intros p. unfold bargeIn. intros H.
    apply andb_prop in H as [_ H]. apply Qgtb_spec, H. }
  split; [reflexivity|]. split; [apply Hiff|]. split; [apply Hgt|]. split; [|split; [|split]].
  - intros Ha Hb Hp.
    assert (Hrun : onaudioprocess_resume (Some speechProb) s
                   = set_ring [] (stopSpeaking true s)).
    { unfold onaudioprocess_resume. rewrite (proj2 (Hiff speechProb)) by auto. reflexivity. }
    assert (Hoff : aiSpeaking (onaudioprocess_resume (Some speechProb) s) = false).
    { rewrite Hrun.
      change (aiSpeaking (set_ring [] (stopSpeaking true s)))
        with (aiSpeaking (stopSpeaking true s)).
      apply stopSpeaking_flags. }
    split; [exact Hrun|]. split; [exact Hoff|].
    intros Heq. rewrite Heq in Hoff.
    change (aiSpeaking (set_ring [] s)) with (aiSpeaking s) in Hoff. congruence.
  - intros Hle. apply (onaudioprocess_resume_quiet (Some speechProb)).
    destruct (bargeIn speechProb s) eqn:E; [|reflexivity].
    apply Hgt in E. exfalso. exact (Qlt_not_le _ _ E Hle).
  - intros Ha. split; [unfold threshold; rewrite Ha; reflexivity|].
    intros result. apply onaudioprocess_resume_not_speaking, Ha.
  - intros [p|] Hne.
    + exists p. split; [reflexivity|]. apply Hgt.
      destruct (bargeIn p s) eqn:E; [reflexivity|].
      exfalso. apply Hne. apply (onaudioprocess_resume_quiet (Some p)). exact E.
    + exfalso. apply Hne. reflexivity.
Qed.

(** While the assistant speaks with the barge-in armed, a score of 0.82
    interrupts it and a score of 0.80 does not; after the loaded script has
    started and nothing speaks, a score of 0.99 changes nothing but the
    emptied buffer. *)
Lemma C9_witness :
  bargeIn 0.82%Q (run (init true true) Scenario.speaking_armed) = true /\
  aiSpeaking (onaudioprocess_resume (Some 0.82%Q)
                (run (init true true) Scenario.speaking_armed)) = false /\
  bargeIn 0.8%Q (run (init true true) Scenario.speaking_armed) = false /\
  onaudioprocess_resume (Some 0.8%Q) (run (init true true) Scenario.speaking_armed)
  = set_ring [] (run (init true true) Scenario.speaking_armed) /\
  onaudioprocess_resume (Some 0.99%Q) (run (init true true) Scenario.started)
  = set_ring [] (run (init true true) Scenario.started).
Proof.
  pose proof (C9_state_dependent_threshold
                (run (init true true) Scenario.speaking_armed) 0.82%Q)
    as (_ & Hiff & _ & Hrun & _).
  pose proof (C9_state_dependent_threshold
                (run (init true true) Scenario.speaking_armed) 0.8%Q)
    as (_ & Hiff' & _ & _ & Hle & _).
  pose proof (C9_state_dependent_threshold
                (run (init true true) Scenario.started) 0.99%Q)
    as (_ & _ & _ & _ & _ & Hsilent & _).
  split; [apply Hiff; repeat split; vm_compute; reflexivity|].
  split; [apply Hrun; vm_compute; reflexivity|].
  split.
  - apply not_true_is_false. intros E.
    apply Hiff' in E as (_ & _ & E). vm_compute in E. discriminate.
  - split; [apply Hle; vm_compute; discriminate|].
    apply Hsilent. vm_compute. reflexivity.
Defined.

(** C10: a frame whose decoded payload has no truthy [id] is dropped: the
    state (displayed text, accumulator, request id and all the rest) is left
    as it was.  The frame the server sends for undecodable input, an error
    with [id: null] and the message [Invalid JSON], is such a frame, so its
    message never reaches the page. *)
Theorem C10_frames_without_id_are_dropped (s : State) :
  (forall msg, JS.falsy (m_id msg) = true -> ws_onmessage (Some msg) s = s) /\
  (forall active ai,
     exists m, Server.on_message None active ai = Server.Reply m /\
               m_type m = Some "error" /\ m_id m = None /\
               m_error m = Some "Invalid JSON" /\
               ws_onmessage (Some m) s = s).
Proof.
  split.
  - intros msg H. unfold ws_onmessage, handleWSMessage.
    destruct (m_id msg) as [id|]; [|reflexivity].
    simpl in H. rewrite H. reflexivity.
  - intros active ai. eexists. split; [reflexivity|]. repeat split.
Qed.

Lemma C10_witness :
  JS.falsy (m_id (MkMsg (Some "partial") (Some "") (Some "lost") None)) = true /\
  ws_onmessage (Some (MkMsg (Some "partial") (Some "") (Some "lost") None))
    (run (init true true) Scenario.two_questions)
  = run (init true true) Scenario.two_questions.
Proof.
  split; [reflexivity|].
  apply (proj1 (C10_frames_without_id_are_dropped (run (init true true) Scenario.two_questions))).
  reflexivity.
Defined.

(** ** Further properties of the code *)

(** *** Request ids *)

Lemma to_int_nibble (x : Q) :
  (0 <= x)%Q -> (x < 1)%Q -> (0 <= Uuid.to_int (x * 16) <= 15)%Z.
Proof.
  destruct x as [n d]. unfold Qle, Qlt, Uuid.to_int. cbn [Qnum Qden Qmult].
  intros H0 H1.
  assert (Hn : (0 <= n)%Z) by lia.
  assert (Hd : (n < Z.pos d)%Z) by lia.
  replace (Z.pos (d * 1)) with (Z.pos d) by (f_equal; lia).
  rewrite Z.quot_div_nonneg by lia. split.
  - apply Z.div_pos; lia.
  - apply Z.lt_succ_r. apply Z.div_lt_upper_bound; lia.
Qed.

Lemma nibble_cases (r : Z) (P : Z -> Prop) :
  (0 <= r <= 15)%Z ->
  P 0%Z -> P 1%Z -> P 2%Z -> P 3%Z -> P 4%Z -> P 5%Z -> P 6%Z -> P 7%Z ->
  P 8%Z -> P 9%Z -> P 10%Z -> P 11%Z -> P 12%Z -> P 13%Z -> P 14%Z -> P 15%Z -> P r.
Proof.
  intros Hr. intros.
  assert (r = 0 \/ r = 1 \/ r = 2 \/ r = 3 \/ r = 4 \/ r = 5 \/ r = 6 \/ r = 7 \/
          r = 8 \/ r = 9 \/ r = 10 \/ r = 11 \/ r = 12 \/ r = 13 \/ r = 14 \/ r = 15)%Z
    as Hc by lia.
  repeat (destruct Hc as [-> | Hc]; [assumption|]). subst r. assumption.
Qed.

(** An [x] of the template becomes one hexadecimal digit. *)
Lemma replacement_x (random : Q) :
  (0 <= random)%Q -> (random < 1)%Q ->
  exists d, Uuid.replacement "x" random = String d "" /\ Uuid.is_hex d = true.
Proof.
  intros H0 H1. unfold Uuid.replacement. cbn [Ascii.eqb Bool.eqb].
  apply (nibble_cases (Uuid.to_int (random * 16))
           (fun r => exists d, Uuid.toString16 r = String d "" /\ Uuid.is_hex d = true));
    [apply to_int_nibble; assumption|..]; vm_compute; eauto.
Qed.

(** The [y] of the template becomes one of [8], [9], [a], [b]. *)
Lemma replacement_y (random : Q) :
  (0 <= random)%Q -> (random < 1)%Q ->
  exists d, Uuid.replacement "y" random = String d "" /\
            (d = "8" \/ d = "9" \/ d = "a" \/ d = "b")%char.
Proof.
  intros H0 H1. unfold Uuid.replacement. cbn [Ascii.eqb Bool.eqb].
  apply (nibble_cases (Uuid.to_int (random * 16))
           (fun r => exists d, Uuid.toString16 (Z.lor (Z.land r 3) 8) = String d "" /\
                               (d = "8" \/ d = "9" \/ d = "a" \/ d = "b")%char));
    [apply to_int_nibble; assumption|..]; vm_compute; eauto 6.
Qed.

(** X1: whatever [Math.random] returns (values from 0 up to, not including,
    1), [uuidv4] returns 36 characters: hyphens at the positions 8, 13, 18 and
    23, the digit 4 at position 14, one of 8, 9, a, b at position 19, and a
    lower-case hexadecimal digit at every position other than 8, 13, 18 and
    23.  In particular an id is never the empty string. *)
Theorem X1_uuidv4_format (random : nat -> Q) :
  (forall k, (0 <= random k)%Q /\ (random k < 1)%Q) ->
  let u := Uuid.uuidv4 random in
  String.length u = 36%nat /\
  (get 8 u = Some "-" /\ get 13 u = Some "-" /\ get 18 u = Some "-" /\
   get 23 u = Some "-")%char /\
  get 14 u = Some "4"%char /\
  (exists d, get 19 u = Some d /\ (d = "8" \/ d = "9" \/ d = "a" \/ d = "b")%char) /\
  (forall i, (i < 36)%nat -> i <> 8%nat -> i <> 13%nat -> i <> 18%nat -> i <> 23%nat ->
     exists d, get i u = Some d /\ Uuid.is_hex d = true) /\
  Forall (fun c => Uuid.is_hex c = true \/ c = "-"%char) (list_ascii_of_string u) /\
  JS.truthy u = true.
Proof.
  intros Hr u. subst u. unfold Uuid.uuidv4, Uuid.template.
  cbn -[Uuid.replacement String.append].
  repeat match goal with
         | |- context [Uuid.replacement "x" (random ?k)] =>
             let d := fresh "d" in let Hd := fresh "Hd" in
             destruct (replacement_x (random k) (proj1 (Hr k)) (proj2 (Hr k)))
               as (d & -> & Hd)
         end.
  destruct (replacement_y (random 15%nat) (proj1 (Hr 15%nat)) (proj2 (Hr 15%nat)))
    as (y & -> & Hy).
  cbn [String.append].
  split; [reflexivity|]. split; [repeat split|]. split; [reflexivity|].
  split; [exists y; split; [reflexivity|exact Hy]|].
  split.
  { intros i Hi H8 H13 H18 H23.
    do 36 (destruct i as [|i];
           [first [congruence
                  | eexists; split;
                    [reflexivity
                    |first [assumption | reflexivity
                           | destruct Hy as [-> | [-> | [-> | ->]]]; reflexivity]]]|]).
    lia. }
  split; [|reflexivity].
  cbn [list_ascii_of_string].
  repeat (constructor; [first [left; assumption | right; reflexivity | left; reflexivity
                              | left; destruct Hy as [-> | [-> | [-> | ->]]]; reflexivity]|]).
  constructor.
Qed.

Lemma X1_witness :
  Uuid.uuidv4 (fun _ => 0.5%Q) = "88888888-8888-4888-8888-888888888888" /\
  String.length (Uuid.uuidv4 (fun _ => 0.5%Q)) = 36%nat /\
  (exists d, get 35 (Uuid.uuidv4 (fun _ => 0.5%Q)) = Some d /\ Uuid.is_hex d = true).
Proof.
  split; [vm_compute; reflexivity|].
  assert (Hr : forall k : nat, (0 <= 0.5)%Q /\ (0.5 < 1)%Q).
  { intros k. split; [unfold Qle; simpl; lia|reflexivity]. }
  split; [apply (X1_uuidv4_format (fun _ => 0.5%Q) Hr)|].
  apply (X1_uuidv4_format (fun _ => 0.5%Q) Hr); lia.
Defined.

(** *** The generation channel *)

Lemma fire_timer_single (id : string) (s : State) (d : N) (a : TimerAction) :
  timers s = [(d, a)] ->
  fire_timer id s = if (d <=? now s)%N then run_callback a id (set_timers [] s) else s.
Proof.
  intros H. unfold fire_timer. rewrite H. cbn [min_due take_due].
  rewrite N.eqb_refl. reflexivity.
Qed.

(** X2: [createWebSocket] leaves the session with exactly one socket that is
    open or connecting: it creates one only when the current one is neither,
    and a second call in a row creates nothing. *)
Theorem X2_createWebSocket_single_socket (s : State) :
  createWebSocket (createWebSocket s) = createWebSocket s /\
  (ws (createWebSocket s) = Some OPEN \/ ws (createWebSocket s) = Some CONNECTING) /\
  (trace (createWebSocket s) = trace s \/
   (ws s <> Some OPEN /\ ws s <> Some CONNECTING /\
    trace (createWebSocket s) = (trace s ++ [WsNew])%list)).
Proof.
  open_state s.
  case_socket ws0; (split; [reflexivity|]); (split; [auto; fail|]);
    first [left; reflexivity | right; repeat split; discriminate].
Qed.

(** X3: when the socket closes, the channel is marked not ready and a
    reconnection is scheduled: with no other timer pending, nothing happens
    before 2000 ms have passed, and the timer then creates a new socket.  The
    reconnection sends nothing: the active request id and the accumulator are
    as they were, and no query is sent again. *)
Theorem X3_reconnect_after_close (s : State) (dt : N) (id : string) :
  timers s = [] ->
  let waited := run s [WsClosed false; Elapse dt] in
  let s' := step waited (TimerFires id) in
  wsReady waited = false /\
  ((dt < RECONNECT_DELAY)%N -> s' = waited) /\
  ((RECONNECT_DELAY <= dt)%N ->
   ws s' = Some CONNECTING /\ wsReady s' = false /\ timers s' = [] /\
   trace s' = (trace s ++ [WsNew])%list /\
   currentReqId s' = currentReqId s /\ partialBuffer s' = partialBuffer s).
Proof.
  intros Ht waited s'.
  assert (Hw : timers waited = [((now s + RECONNECT_DELAY)%N, Reconnect)]).
  { subst waited. open_state s. simpl in Ht. subst timers0. case_socket ws0; reflexivity. }
  assert (Hn : now waited = (now s + dt)%N).
  { subst waited. open_state s. case_socket ws0; reflexivity. }
  assert (Hs : s' = if (now s + RECONNECT_DELAY <=? now s + dt)%N
                    then createWebSocket (set_timers [] waited) else waited).
  { subst s'. cbv beta iota delta [step].
    rewrite (fire_timer_single id waited _ _ Hw), Hn. reflexivity. }
  split; [subst waited; open_state s; case_socket ws0; reflexivity|].
  split.
  - intros Hlt. rewrite Hs.
    destruct (N.leb_spec (now s + RECONNECT_DELAY) (now s + dt)); [lia|reflexivity].
  - intros Hle. rewrite Hs.
    destruct (N.leb_spec (now s + RECONNECT_DELAY) (now s + dt)); [|lia].
    subst waited. open_state s. case_socket ws0; repeat split.
Qed.

Lemma X3_witness :
  timers (run (init true true) (Scenario.started ++ [Result "range?" "a1"])) = [] /\
  ws (run (init true true)
        (Scenario.started
           ++ [Result "range?" "a1"; WsClosed false; Elapse 2000; TimerFires ""]))
  = Some CONNECTING.
Proof.
  split; [vm_compute; reflexivity|].
  apply (X3_reconnect_after_close
           (run (init true true) (Scenario.started ++ [Result "range?" "a1"]))
           2000 "" eq_refl).
  vm_compute. discriminate.
Defined.

(** *** Stopping *)



(** X5: stopping does not end the reconnection.  When the assistant is
    stopped with an open socket and no timer pending, the close event of that
    socket still schedules a reconnection, and 2000 ms later a new socket is
    created although the assistant is not running. *)
Theorem X5_reconnect_survives_stop (s : State) (id : string) :
  running s = true -> ws s = Some OPEN -> timers s = [] ->
  let s' := run s [MicClick; WsClosed true; Elapse RECONNECT_DELAY; TimerFires id] in
  running s' = false /\ ws s' = Some CONNECTING /\ last (trace s') = Some WsNew.
Proof.
  intros Hr Hws Ht s'.
  set (waited := run s [MicClick; WsClosed true; Elapse RECONNECT_DELAY]).
  assert (Hw : timers waited = [((now s + RECONNECT_DELAY)%N, Reconnect)]
               /\ now waited = (now s + RECONNECT_DELAY)%N
               /\ running waited = false /\ ws waited = None).
  { subst waited. open_state s. simpl in Hr, Hws, Ht. subst.
    destruct recognition0, vadProcessor0, vadSource0, vadAudioCtx0, audio0, synth0, wsReady0;
      case_id currentReqId0; repeat split. }
  destruct Hw as (Hw & Hn & Hrun & Hnone).
  assert (Hs : s' = createWebSocket (set_timers [] waited)).
  { subst s'. change (fire_timer id waited = createWebSocket (set_timers [] waited)).
    rewrite (fire_timer_single id waited _ _ Hw), Hn, N.leb_refl. reflexivity. }
  rewrite Hs. clearbody waited. clear Hs s'. open_state waited.
  simpl in Hrun, Hnone. subst. repeat split. apply last_snoc.
Qed.

Lemma X5_witness :
  ws (run (init true true)
        (Scenario.started ++ [MicClick; WsClosed true; Elapse RECONNECT_DELAY; TimerFires ""]))
  = Some CONNECTING.
Proof.
  exact (proj1 (proj2 (X5_reconnect_survives_stop
                         (run (init true true) Scenario.started) ""
                         eq_refl eq_refl eq_refl))).
Defined.

(** X6: [stopVAD] is idempotent, it leaves every VAD variable reset, and
    after it a call of the audio callback changes nothing: no sample is
    buffered and no classification starts. *)
Theorem X6_stopVAD_idempotent_and_silent (s : State) :
  stopVAD (stopVAD s) = stopVAD s /\
  (forall inputData result, onaudioprocess inputData result (stopVAD s) = stopVAD s) /\
  vadRunning (stopVAD s) = false /\ vadSession (stopVAD s) = false /\
  vadAudioCtx (stopVAD s) = false /\ vadSource (stopVAD s) = false /\
  vadProcessor (stopVAD s) = false.
Proof.
  open_state s.
  destruct vadProcessor0, vadSource0, vadAudioCtx0; repeat split.
Qed.

(** *** The window buffer *)





(** *** Questions *)

(** X8: a transcript or a question that is empty, or white space only, is
    dropped: nothing is sent, scheduled or shown, the state is as before. *)
Theorem X8_blank_input_is_dropped (raw id : string) (s : State) :
  JS.truthy (JS.trim raw) = false ->
  handleQuestion raw id s = s /\ recognition_onresult raw id s = s.
Proof.
  intros H. unfold handleQuestion, recognition_onresult. rewrite H.
  rewrite orb_true_r. split; reflexivity.
Qed.

Lemma X8_witness :
  recognition_onresult "   " "a1" (run (init true true) Scenario.started)
  = run (init true true) Scenario.started.
Proof.
  exact (proj2 (X8_blank_input_is_dropped "   " "a1"
                  (run (init true true) Scenario.started) eq_refl)).
Defined.

(** X9: a question that is not blank shows [Thinking...] and takes one of
    two ways.  Over a ready, open channel exactly one query frame is sent,
    with the new id and the question as given; the id becomes the active one
    and its accumulator entry is set to the empty text.  When the channel is
    not ready, the question goes to [/query] instead, and neither the active
    id nor the accumulator changes.  Either way the speech flag and the
    timers are left alone. *)
Theorem X9_handleQuestion_paths (questionText id : string) (s : State) :
  JS.truthy (JS.trim questionText) = true ->
  let s' := handleQuestion questionText id s in
  botText s' = "Thinking..." /\
  (wsReady s = true -> ws s = Some OPEN ->
   trace s' = (trace s ++ [WsSend (Query id questionText)])%list /\
   currentReqId s' = Some id /\ partialBuffer s' = <[id := ""]> (partialBuffer s)) /\
  (wsReady s = false ->
   trace s' = (trace s ++ [FetchQuery questionText])%list /\
   currentReqId s' = currentReqId s /\ partialBuffer s' = partialBuffer s) /\
  aiSpeaking s' = aiSpeaking s /\ timers s' = timers s.
Proof.
  intros Hq s'. subst s'. unfold handleQuestion.
  rewrite Hq, (trim_truthy _ Hq). cbv beta iota delta [negb orb].
  open_state s. destruct wsReady0; case_socket ws0; repeat split; try discriminate.
Qed.

Lemma X9_witness :
  trace (handleQuestion "range?" "a1" (run (init true true) Scenario.started))
  = (trace (run (init true true) Scenario.started)
     ++ [WsSend (Query "a1" "range?")])%list /\
  trace (handleQuestion "range?" "a1" (run (init true true) [MicClick]))
  = (trace (run (init true true) [MicClick]) ++ [FetchQuery "range?"])%list.
Proof.
  pose proof (X9_handleQuestion_paths "range?" "a1"
                (run (init true true) Scenario.started) eq_refl) as (_ & Hws & _).
  pose proof (X9_handleQuestion_paths "range?" "a1"
                (run (init true true) [MicClick]) eq_refl) as (_ & _ & Hfetch & _).
  exact (conj (proj1 (Hws eq_refl eq_refl)) (proj1 (Hfetch eq_refl))).
Defined.

(** X10: a transcript that arrives while the assistant speaks is kept.  The
    handler shows it, stops the speech as [stopSpeaking(false)] does (among
    the calls it makes there is no [recognition.start()] and no query), and
    schedules the question, trimmed, 40 ms later; the text on the page and
    the accumulator are as before. *)
Theorem X10_transcript_while_speaking (raw id : string) (s : State) :
  JS.truthy (JS.trim raw) = true -> aiSpeaking s = true ->
  let s' := recognition_onresult raw id s in
  userText s' = JS.trim raw /\
  aiSpeaking s' = false /\ bargeInEnabled s' = false /\ audio s' = false /\
  timers s' = (timers s ++ [((now s + SETTLE_DELAY)%N, Ask (JS.trim raw))])%list /\
  trace s' = (trace s ++ stopSpeaking_calls false s)%list /\
  ~ In RecStart (stopSpeaking_calls false s) /\
  (forall i q, ~ In (WsSend (Query i q)) (stopSpeaking_calls false s)) /\
  botText s' = botText s /\ partialBuffer s' = partialBuffer s.
Proof.
  intros Hq Hs s'. subst s'. unfold recognition_onresult. rewrite Hq.
  cbv beta iota zeta delta [negb].
  change (aiSpeaking (set_userText (JS.trim raw) s)) with (aiSpeaking s). rewrite Hs.
  generalize (JS.trim raw). intros t.
  assert (Hno : forall e, (forall i, e <> WsSend (Cancel i)) -> e <> SynthCancel ->
                          e <> AudioPause -> ~ In e (stopSpeaking_calls false s)).
  { intros e H1 H2 H3. unfold stopSpeaking_calls.
    destruct (hasSpeechSynthesis s), (audio s), (cancelled_request s),
      (bool_decide (ws s = Some OPEN)); cbn;
      intros Hin; repeat (destruct Hin as [Hin|Hin]; [symmetry in Hin; try contradiction|]);
      try contradiction; eapply H1; eassumption. }
  assert (Hfields :
            userText (setTimeout (Ask t) SETTLE_DELAY (stopSpeaking false (set_userText t s)))
            = t /\
            timers (setTimeout (Ask t) SETTLE_DELAY (stopSpeaking false (set_userText t s)))
            = (timers s ++ [((now s + SETTLE_DELAY)%N, Ask t)])%list /\
            botText (setTimeout (Ask t) SETTLE_DELAY (stopSpeaking false (set_userText t s)))
            = botText s).
  { open_state s. destruct recognition0, audio0, synth0, wsReady0;
      case_id currentReqId0; case_socket ws0; repeat split. }
  destruct Hfields as (Huser & Htimers & Hbot).
  split; [exact Huser|].
  split; [apply (stopSpeaking_flags false (set_userText t s))|].
  split; [apply (stopSpeaking_flags false (set_userText t s))|].
  split; [apply (stopSpeaking_audio false (set_userText t s))|].
  split; [exact Htimers|].
  split; [exact (stopSpeaking_trace false (set_userText t s))|].
  split; [apply Hno; discriminate|].
  split; [intros i q; apply Hno; discriminate|].
  split; [exact Hbot|].
  exact (stopSpeaking_partialBuffer false (set_userText t s)).
Qed.

(** The transcript has a no-break space in front and a space at the end:
    the bare word is scheduled. *)
Lemma X10_witness :
  aiSpeaking (run (init true true) Scenario.speaking_armed) = true /\
  timers (recognition_onresult (JS.nbsp +:+ "stop ") ""
            (run (init true true) Scenario.speaking_armed))
  = [(390%N, Ask "stop")].
Proof.
  split; [vm_compute; reflexivity|].
  exact (proj1 (proj2 (proj2 (proj2 (proj2
    (X10_transcript_while_speaking (JS.nbsp +:+ "stop ") ""
       (run (init true true) Scenario.speaking_armed) eq_refl eq_refl)))))).
Defined.

(** *** Playback *)

(** X11: every answer handed to [playAnswerAudio] starts and ends the
    speech.  Whatever [/speak] and the playback come to, once the audio
    element or the fallback utterance has ended (or at once, in a browser
    without speech synthesis), both speech flags are reset and the last call
    is [recognition.start()]; and when no audio plays, a browser with speech
    synthesis speaks the full answer text. *)
Theorem X11_every_answer_ends_speaking
    (answerText : string) (o : SpeakOutcome) (s : State) :
  let s1 := playAnswerAudio_resume answerText o (playAnswerAudio answerText s) in
  let s2 := run s1 (completion o (hasSpeechSynthesis s)) in
  aiSpeaking (playAnswerAudio answerText s) = true /\
  aiSpeaking s2 = false /\ bargeInEnabled s2 = false /\
  (recognition s = true -> last (trace s2) = Some RecStart) /\
  (o <> AudioBytes -> hasSpeechSynthesis s = true -> In (SynthSpeak answerText) (trace s1)).
Proof.
  intros s1 s2. subst s2 s1. open_state s.
  destruct o, synth0, recognition0; repeat split; try discriminate; try congruence;
    try (intros _; apply last_snoc);
    intros _ _; apply in_or_app; right; cbn; auto.
Qed.

Lemma X11_witness :
  last (trace (run (playAnswerAudio_resume "Hello" NoContent
                      (playAnswerAudio "Hello" (run (init true true) Scenario.started)))
                 [UtteranceEnd]))
  = Some RecStart.
Proof.
  pose proof (X11_every_answer_ends_speaking "Hello" NoContent
                (run (init true true) Scenario.started)) as (_ & _ & _ & H & _).
  exact (H eq_refl).
Defined.

(** *** Starting *)

(** X12: a click on the button while the assistant is idle always starts it,
    and a failure degrades it without stopping the start.  In a browser
    without speech recognition the page says so and no recogniser is created;
    when the model or the microphone fails, the monitor stays off; in every
    case the model is loaded and the channel ends up open or connecting. *)
Theorem X12_startup_degrades (o : VadOutcome) (s : State) :
  running s = false ->
  let s' := run s [MicClick; VadReady o] in
  running s' = true /\
  (ws s' = Some OPEN \/ ws s' = Some CONNECTING) /\
  recognition s' = (hasSpeechRecognition s || recognition s) /\
  vadRunning s' = match o with VadStarted => true | _ => vadRunning s end /\
  botText s' = (if hasSpeechRecognition s then "Listening..."
                else "Speech recognition not supported in this browser.") /\
  trace s'
  = (trace s
     ++ (if hasSpeechRecognition s then [RecNew; RecStart] else [])
     ++ [LoadModel]
     ++ match ws s with Some OPEN | Some CONNECTING => [] | _ => [WsNew] end)%list.
Proof.
  intros Hr s'. subst s'. open_state s. simpl in Hr. subst running0.
  destruct recog0, recognition0, o; case_socket ws0;
    (split; [reflexivity|]); (split; [auto; fail|]); repeat split;
    cbn; rewrite <- ?app_assoc; reflexivity.
Qed.

Lemma X12_witness :
  recognition (run (init true false) [MicClick; VadReady ModelFailed]) = false /\
  ws (run (init true false) [MicClick; VadReady ModelFailed]) = Some CONNECTING.
Proof.
  pose proof (X12_startup_degrades ModelFailed (init true false) eq_refl)
    as (_ & _ & Hrec & _).
  split; [exact Hrec|vm_compute; reflexivity].
Defined.

(** *** The server's socket handler *)

(** X13: the server starts a generation for a message exactly when the
    message is a query with a truthy id and a truthy question, the id is not
    the id of a request that is active on the socket, and the generation
    client is configured.  A request id that is active never starts a second
    generation. *)
Theorem X13_generation_starts_iff
    (parsed : option Server.ClientMsg) (active : gset string) (ai : bool)
    (id question : string) :
  Server.on_message parsed active ai = Server.Generate id question
  <-> (ai = true /\ (id ∉ active) /\ JS.truthy id = true /\ JS.truthy question = true /\
       exists msg, parsed = Some msg /\ Server.c_type msg = Some "query" /\
                   Server.c_id msg = Some id /\ Server.c_question msg = Some question).
Proof.
  unfold Server.on_message. split.
  - destruct parsed as [msg|]; [|discriminate].
    destruct (decide (Server.c_type msg = Some "query")) as [Ht|Ht].
    + destruct (Server.c_id msg) as [i|] eqn:Hi, (Server.c_question msg) as [q|] eqn:Hq;
        try discriminate.
      destruct (JS.truthy i) eqn:Hti, (JS.truthy q) eqn:Htq; cbn [negb orb]; try discriminate.
      destruct (decide (i ∈ active)) as [Hin|Hin]; [discriminate|].
      destruct ai; cbn [negb]; [|discriminate].
      intros [= <- <-]. repeat split; try assumption. exists msg. auto.
    + destruct (decide (Server.c_type msg = Some "cancel")); [|discriminate].
      destruct (Server.c_id msg) as [i|]; [|discriminate].
      destruct (JS.truthy i); discriminate.
  - intros (-> & Hin & Hti & Htq & msg & -> & Ht & Hi & Hq).
    rewrite Hi, Hq, Hti, Htq. cbn [negb orb].
    destruct (decide (Server.c_type msg = Some "query")); [|contradiction].
    destruct (decide (id ∈ active)); [contradiction|reflexivity].
Qed.

Lemma X13_witness :
  Server.on_message (Some (Server.MkClientMsg (Some "query") (Some "a1") (Some "range?")))
    ∅ true
  = Server.Generate "a1" "range?" /\
  Server.on_message (Some (Server.MkClientMsg (Some "query") (Some "a1") (Some "range?")))
    {["a1"]} true
  <> Server.Generate "a1" "range?".
Proof.
  split.
  - apply (proj2 (X13_generation_starts_iff _ ∅ true "a1" "range?")).
    repeat split; [set_solver|]. eexists. repeat split.
  - intros H. apply (proj1 (X13_generation_starts_iff _ {["a1"]} true "a1" "range?")) in H.
    destruct H as (_ & Hin & _). apply Hin. set_solver.
Defined.

Lemma or_null_spec (id : option string) :
  Server.or_null id = None \/ exists i, Server.or_null id = Some i /\ JS.truthy i = true.
Proof.
  unfold Server.or_null. destruct id as [i|]; [|left; reflexivity].
  destruct (JS.truthy i) eqn:E; [right; eauto|left; reflexivity].
Qed.

Lemma error_frame_on_page (i : option string) (e : string) (s : State) :
  JS.truthy e = true ->
  (i = None \/ exists x, i = Some x /\ JS.truthy x = true) ->
  m_id (Server.error_frame i e) <> Some "" /\
  (m_type (Server.error_frame i e) = Some "error" ->
   match m_id (Server.error_frame i e) with
   | Some _ => exists e', m_error (Server.error_frame i e) = Some e' /\
                 ws_onmessage (Some (Server.error_frame i e)) s
                 = set_botText ("Error: " +:+ e') s
   | None => ws_onmessage (Some (Server.error_frame i e)) s = s
   end).
Proof.
  intros He Hi. unfold Server.error_frame. cbn [m_id m_type m_error].
  destruct Hi as [-> | (x & -> & Hx)].
  - split; [discriminate|]. intros _. reflexivity.
  - split; [intros [= ->]; discriminate|]. intros _. exists e. split; [reflexivity|].
    unfold ws_onmessage, handleWSMessage. cbn [m_id m_type m_error]. rewrite Hx.
    cbn [negb]. destruct e; [discriminate|]. reflexivity.
Qed.

(** X14: what the user sees of the server's immediate replies.  A reply
    never carries the empty string for an id (a missing or empty id is sent
    as null).  An error reply with an id changes the page to [Error: ]
    followed by the server's message and changes nothing else; an error reply
    without an id changes nothing at all. *)
Theorem X14_server_replies_on_the_page
    (parsed : option Server.ClientMsg) (active : gset string) (ai : bool)
    (m : Msg) (s : State) :
  Server.on_message parsed active ai = Server.Reply m ->
  m_id m <> Some "" /\
  (m_type m = Some "error" ->
   match m_id m with
   | Some _ => exists e, m_error m = Some e /\
                         ws_onmessage (Some m) s = set_botText ("Error: " +:+ e) s
   | None => ws_onmessage (Some m) s = s
   end).
Proof.
  unfold Server.on_message.
  destruct parsed as [msg|].
  - destruct (decide (Server.c_type msg = Some "query")) as [Ht|Ht].
    + destruct (Server.c_id msg) as [i|] eqn:Hi, (Server.c_question msg) as [q|] eqn:Hq.
      * destruct (JS.truthy i) eqn:Hti; cbn [negb orb].
        -- destruct (JS.truthy q) eqn:Htq; cbn [negb].
           ++ destruct (decide (i ∈ active)).
              ** intros [= <-]. apply error_frame_on_page; [reflexivity|eauto].
              ** destruct ai; cbn [negb]; [discriminate|].
                 intros [= <-]. cbn [m_id m_type]. split; [|discriminate].
                 intros [= ->]. discriminate.
           ++ intros [= <-].
              apply error_frame_on_page; [reflexivity|exact (or_null_spec (Some i))].
        -- intros [= <-].
           apply error_frame_on_page; [reflexivity|exact (or_null_spec (Some i))].
      * intros [= <-].
        apply error_frame_on_page; [reflexivity|exact (or_null_spec (Some i))].
      * intros [= <-]. apply error_frame_on_page; [reflexivity|exact (or_null_spec None)].
      * intros [= <-]. apply error_frame_on_page; [reflexivity|exact (or_null_spec None)].
    + destruct (decide (Server.c_type msg = Some "cancel")).
      * destruct (Server.c_id msg) as [i|]; [|discriminate].
        destruct (JS.truthy i) eqn:Hti; [|discriminate].
        intros [= <-]. cbn [m_id m_type]. split; [|discriminate].
        intros [= ->]. discriminate.
      * intros [= <-]. apply error_frame_on_page; [reflexivity|apply or_null_spec].
  - intros [= <-]. apply error_frame_on_page; [reflexivity|left; reflexivity].
Qed.

Lemma X14_witness :
  botText (ws_onmessage
             (Some (Server.error_frame (Some "a1") "Request id already active"))
             (run (init true true) Scenario.started))
  = "Error: Request id already active".
Proof.
  pose proof (X14_server_replies_on_the_page
                (Some (Server.MkClientMsg (Some "query") (Some "a1") (Some "range?")))
                {["a1"]} true
                (Server.error_frame (Some "a1") "Request id already active")
                (run (init true true) Scenario.started) eq_refl) as [_ H].
  destruct (H eq_refl) as (e & He & ->). injection He as <-. reflexivity.
Defined.

(** *** The streaming loop *)

Lemma deliver_app (a b : list Msg) (s : State) :
  deliver (a ++ b) s = deliver b (deliver a s).
Proof. unfold deliver. apply fold_left_app. Qed.

(** The partial frames of the loop carry texts that are not empty, and the
    value of [accumulated] is its value before the loop followed by these
    texts. *)
Lemma stream_loop_spec (id : string) (items : list (bool * Generation.Chunk)) :
  forall acc0, exists fs,
    (Generation.stream_loop id items acc0).1.2 = map (partial_frame id) (map Some fs) /\
    Forall (fun t => JS.truthy t = true) fs /\
    (Generation.stream_loop id items acc0).1.1 = acc0 +:+ concat_fragments (map Some fs).
Proof.
  induction items as [|[open chunk] items IH]; intros acc0.
  - exists []. repeat split; [constructor|]. cbn. symmetry. apply append_empty_r.
  - cbn [Generation.stream_loop]. destruct open; cbn [negb].
    + destruct (JS.truthy (Generation.chunk_text chunk)) eqn:Ht.
      * destruct (IH (acc0 +:+ Generation.chunk_text chunk)) as (fs & Hs & Hf & Ha).
        destruct (Generation.stream_loop id items (acc0 +:+ Generation.chunk_text chunk))
          as [[acc sent] ab].
        cbn [fst snd] in *. exists (Generation.chunk_text chunk :: fs).
        split; [cbn [map]; rewrite Hs; reflexivity|].
        split; [constructor; assumption|].
        rewrite Ha. cbn [map concat_fragments]. rewrite or_else_Some_empty.
        apply append_assoc.
      * apply IH.
    + exists []. repeat split; [constructor|]. cbn. symmetry. apply append_empty_r.
Qed.

(** With the socket open throughout, the loop runs to the end over the text
    of all the chunks. *)
Lemma stream_loop_open (id : string) (chunks : list Generation.Chunk) :
  forall acc0,
    (Generation.stream_loop id (map (pair true) chunks) acc0).1.1
    = acc0 +:+ Generation.concat_text chunks /\
    (Generation.stream_loop id (map (pair true) chunks) acc0).2 = false.
Proof.
  induction chunks as [|c chunks IH]; intros acc0.
  - split; [symmetry; apply append_empty_r|reflexivity].
  - cbn [map Generation.stream_loop negb Generation.concat_text].
    destruct (JS.truthy (Generation.chunk_text c)) eqn:Ht.
    + destruct (IH (acc0 +:+ Generation.chunk_text c)) as [Ha Hb].
      destruct (Generation.stream_loop id (map (pair true) chunks)
                  (acc0 +:+ Generation.chunk_text c)) as [[acc sent] ab].
      cbn [fst snd] in *. split; [|exact Hb]. rewrite Ha. apply append_assoc.
    + destruct (Generation.chunk_text c); [|discriminate]. apply IH.
Qed.

(** X15: the frames that the socket carries for one request whose answer is
    streamed.  Every frame is a partial frame with a text that is not empty,
    or a terminal frame (final, cancelled or error) for the same id, and with
    the socket open at the end of the run there is a terminal frame.  A cancel
    message handled while the stream runs is acknowledged with a cancelled
    frame at once, partial frames may still follow it, and the run ends with a
    second terminal frame.  A final frame is sent only when the stream
    completed with the socket open at every chunk and no cancel message
    handled meanwhile; then only partial frames precede it, its text is their
    texts end to end, trimmed, and only cancelled frames (the
    acknowledgements of late cancel messages) follow it. *)
Theorem X15_frames_of_a_generation
    (id : string) (steps : list Generation.Step) (e : Generation.StreamEnd)
    (open : bool) (late : list bool) :
  let fs := Generation.wire id steps e open late in
  Forall (fun m => Generation.is_partial id m \/ Generation.is_terminal id m) fs /\
  (if open then Exists (Generation.is_terminal id) fs else True) /\
  (forall before after,
     steps = (before ++ Generation.CancelMsg true :: after)%list ->
     Forall (fun st => exists c, st = Generation.Yield true c) before ->
     exists ps rest,
       fs = (ps ++ cancelled_frame id :: rest)%list /\
       Forall (Generation.is_partial id) ps /\
       Forall not_final rest /\
       (if open then Exists (Generation.is_terminal id) rest else True)) /\
  (forall a m b, fs = (a ++ m :: b)%list -> m_type m = Some "final" ->
     e = Generation.Completed /\
     Forall (fun st => exists c, st = Generation.Yield true c) steps /\
     Forall (Generation.is_partial id) a /\
     m = final_frame id (Some (JS.trim (concat_fragments (map m_text a)))) /\
     Forall (fun m' => m' = cancelled_frame id) b).
Proof.
  intros fs. split; [|split; [|split]].
  - subst fs. unfold Generation.wire.
    destruct (wire_loop_spec id steps "" false) as [Hall _].
    destruct (Generation.wire_loop id steps "" false) as [[acc sent] ab].
    cbn [fst snd] in Hall. apply Forall_app. split; [|apply Forall_app; split].
    + eapply Forall_impl; [exact Hall|]. intros m [H| ->]; [left; exact H|right].
      apply cancelled_terminal.
    + destruct open; cbn [Generation.safeSend]; constructor; [|constructor].
      right. apply ending_terminal.
    + eapply Forall_impl; [exact (acks_cancelled id late)|]. intros m ->. right.
      apply cancelled_terminal.
  - subst fs. unfold Generation.wire.
    destruct (Generation.wire_loop id steps "" false) as [[acc sent] ab].
    destruct open; [|exact I]. cbn [Generation.safeSend].
    apply Exists_app. right. constructor. apply ending_terminal.
  - intros before after -> Hbefore. subst fs. unfold Generation.wire.
    destruct (wire_loop_cancel id before after Hbefore "" false)
      as (ps & acc1 & Hps & ->).
    destruct (wire_loop_spec id after acc1 true) as [Hall Hok].
    destruct (Generation.wire_loop id after acc1 true) as [[acc sent] ab].
    cbn [fst snd] in *. exists ps.
    exists (sent ++ Generation.safeSend open (Generation.ending id e ab acc)
              ++ Generation.acks id late)%list.
    split; [rewrite <- app_assoc; reflexivity|]. split; [exact Hps|].
    assert (Hab : ab = true).
    { destruct ab; [reflexivity|]. destruct (Hok eq_refl) as [? _]. discriminate. }
    subst ab. split.
    + apply Forall_app. split; [exact (not_final_partial_or_cancelled id sent Hall)|].
      apply Forall_app. split; [|exact (not_final_cancelled id _ (acks_cancelled id late))].
      destruct open; cbn [Generation.safeSend]; constructor; [|constructor].
      destruct e as [|[] msg]; discriminate.
    + destruct open; [|exact I]. cbn [Generation.safeSend].
      apply Exists_app. right. constructor. apply ending_terminal.
  - intros a m b Heq Hm.
    destruct (wire_final id steps e open late a b m Heq Hm) as (He & Hs & Ha & Hmm & ->).
    repeat split; try assumption. apply acks_cancelled.
Qed.

(** The exchange of a barge-in while the answer streams: the cancel message
    is acknowledged at once, a chunk still arrives, and the run ends with a
    second cancelled frame. *)
Lemma X15_witness :
  Generation.wire "a1"
    [Generation.Yield true (Generation.Text "Range ");
     Generation.CancelMsg true;
     Generation.Yield true (Generation.Str "is 150 km")]
    Generation.Completed true []
  = [partial_frame "a1" (Some "Range "); cancelled_frame "a1";
     partial_frame "a1" (Some "is 150 km"); cancelled_frame "a1"] /\
  Forall (fun m => Generation.is_partial "a1" m \/ Generation.is_terminal "a1" m)
    (Generation.wire "a1"
       [Generation.Yield true (Generation.Text "Range ");
        Generation.CancelMsg true;
        Generation.Yield true (Generation.Str "is 150 km")]
       Generation.Completed true []).
Proof.
  split; [reflexivity|].
  exact (proj1 (X15_frames_of_a_generation "a1"
                  [Generation.Yield true (Generation.Text "Range ");
                   Generation.CancelMsg true;
                   Generation.Yield true (Generation.Str "is 150 km")]
                  Generation.Completed true [])).
Defined.

(** X16: the client's accumulator keeps step with the server's.  From an
    empty accumulator entry, after the partial frames of a generation (also
    one that is cut short by a closed socket), the client's accumulated text
    for the id is the server's value of [accumulated]. *)
Theorem X16_accumulator_in_step
    (id : string) (items : list (bool * Generation.Chunk)) (s : State) :
  JS.truthy id = true -> accumulated id s = "" ->
  accumulated id (deliver (Generation.partials_sent id items) s)
  = Generation.accumulated_text id items.
Proof.
  intros Hid Hempty. unfold Generation.partials_sent, Generation.accumulated_text.
  destruct (stream_loop_spec id items "") as (fs & -> & _ & ->).
  rewrite accumulated_deliver by exact Hid. rewrite Hempty. reflexivity.
Qed.

Lemma X16_witness :
  accumulated "a1"
    (deliver (Generation.partials_sent "a1"
                [(true, Generation.Text "Range "); (true, Generation.Other);
                 (true, Generation.Str "is 150 "); (false, Generation.Str "km")])
       (run (init true true) (Scenario.started ++ [Result "range?" "a1"])))
  = "Range is 150 ".
Proof.
  exact (X16_accumulator_in_step "a1"
           [(true, Generation.Text "Range "); (true, Generation.Other);
            (true, Generation.Str "is 150 "); (false, Generation.Str "km")]
           (run (init true true) (Scenario.started ++ [Result "range?" "a1"]))
           eq_refl eq_refl).
Defined.

(** X17: a generation that runs to its end, seen from the page.  With the
    socket open throughout and no cancel, the client, starting from an empty
    accumulator entry, ends up playing the text of all the chunks put end to
    end and trimmed (or untrimmed, when trimming leaves nothing), its
    accumulator entry for the id is removed, and the page shows the untrimmed
    text if there is any. *)
Theorem X17_stream_round_trip (id : string) (chunks : list Generation.Chunk) (s : State) :
  JS.truthy id = true -> accumulated id s = "" ->
  let acc := Generation.concat_text chunks in
  let s' := deliver (Generation.wire id (map (Generation.Yield true) chunks)
                       Generation.Completed true []) s in
  last (trace s') = Some (FetchSpeak (JS.or_else (Some (JS.trim acc)) acc)) /\
  partialBuffer s' !! id = None /\
  (JS.truthy acc = true -> botText s' = acc).
Proof.
  intros Hid Hempty acc s'. subst s' acc. unfold Generation.wire.
  pose proof (wire_loop_no_cancel id (map (pair true) chunks) "") as Hw.
  rewrite map_map in Hw. cbn [fst snd] in Hw.
  change (map (fun x => Generation.Yield true x) chunks)
    with (map (Generation.Yield true) chunks) in Hw.
  rewrite Hw. clear Hw.
  destruct (stream_loop_spec id (map (pair true) chunks) "") as (fs & Hs & Hf & Ha).
  destruct (stream_loop_open id chunks "") as [Hacc Hab].
  destruct (Generation.stream_loop id (map (pair true) chunks) "") as [[acc sent] aborted].
  cbn [fst snd] in *. subst aborted.
  cbn [Generation.ending Generation.safeSend Generation.acks flat_map app].
  change ("" +:+ Generation.concat_text chunks) with (Generation.concat_text chunks) in Hacc.
  change ("" +:+ concat_fragments (map Some fs)) with (concat_fragments (map Some fs)) in Ha.
  rewrite deliver_app. cbn [deliver fold_left].
  fold (deliver sent s). set (s1 := deliver sent s).
  assert (H1 : accumulated id s1 = acc).
  { subst s1. rewrite Hs, accumulated_deliver by exact Hid. rewrite Hempty, Ha. reflexivity. }
  rewrite handleWSMessage_final by exact Hid. rewrite H1, <- Hacc.
  split; [apply playAnswerAudio_last|].
  split; [rewrite playAnswerAudio_partialBuffer; apply lookup_delete_eq|].
  intros Htr. rewrite playAnswerAudio_botText.
  change (botText (set_partialBuffer (delete id (partialBuffer s1)) s1)) with (botText s1).
  rewrite <- H1. subst s1. rewrite Hs. apply botText_deliver; [exact Hid|].
  intros Hnil. apply map_eq_nil in Hnil. subst fs.
  rewrite Ha in Htr. discriminate.
Qed.

(** The model's output ends in a no-break space: the spoken text is without
    it. *)
Lemma X17_witness :
  last (trace (deliver (Generation.wire "a1"
                          (map (Generation.Yield true)
                             [Generation.Text "Range "; Generation.Str "is 150 ";
                              Generation.TextFn (Some ("km" +:+ JS.nbsp))])
                          Generation.Completed true [])
                 (run (init true true) (Scenario.started ++ [Result "range?" "a1"]))))
  = Some (FetchSpeak "Range is 150 km").
Proof.
  exact (proj1 (X17_stream_round_trip "a1"
                  [Generation.Text "Range "; Generation.Str "is 150 ";
                   Generation.TextFn (Some ("km" +:+ JS.nbsp))]
                  (run (init true true) (Scenario.started ++ [Result "range?" "a1"]))
                  eq_refl eq_refl)).
Defined.

(** *** The HTTP fallbacks *)

Lemma or_else_truthy (a : option string) (d : string) :
  JS.truthy d = true -> JS.truthy (JS.or_else a d) = true.
Proof.
  intros Hd. unfold JS.or_else. destruct a as [t|]; [|exact Hd].
  destruct (JS.truthy t) eqn:E; [exact E|exact Hd].
Qed.

(** X18: the fallback over [/query], end to end.  A question that is not
    blank is never refused as empty, and whatever the model returns, the page
    never shows an empty answer.  When the generation throws, the page shows
    [Error contacting assistant.] and nothing is spoken; in every other case
    (no client configured, an answer, an empty or missing answer) the client
    starts speaking exactly the text it shows. *)
Theorem X18_query_fallback_end_to_end
    (questionText : string) (ai : option Http.Generated) (s : State) :
  JS.truthy (JS.trim questionText) = true ->
  let r := Http.query (Some questionText) ai in
  let s' := handleQuestionViaFetch_resume (Http.query_outcome r) s in
  r <> Http.Status400 /\
  JS.truthy (botText s') = true /\
  match ai with
  | Some Http.Failed =>
      botText s' = "Error contacting assistant." /\ trace s' = trace s /\
      aiSpeaking s' = aiSpeaking s
  | _ => aiSpeaking s' = true /\ last (trace s') = Some (FetchSpeak (botText s'))
  end.
Proof.
  intros Hq r s'. subst s' r. unfold Http.query.
  rewrite or_else_Some_empty, Hq. cbv beta iota delta [negb].
  destruct ai as [[|text part]|];
    cbv beta iota zeta delta [Http.query_outcome handleQuestionViaFetch_resume].
  - repeat split; discriminate.
  - split; [discriminate|].
    match goal with |- context [JS.or_else (Some ?a) "No answer returned."] =>
      generalize a end.
    intros a. rewrite playAnswerAudio_botText.
    change (botText (set_botText (JS.or_else (Some a) "No answer returned.") s))
      with (JS.or_else (Some a) "No answer returned.").
    split; [apply or_else_truthy; reflexivity|].
    split; [apply playAnswerAudio_flags|apply playAnswerAudio_last].
  - split; [discriminate|].
    match goal with |- context [JS.or_else (Some ?a) "No answer returned."] =>
      generalize a end.
    intros a. rewrite playAnswerAudio_botText.
    change (botText (set_botText (JS.or_else (Some a) "No answer returned.") s))
      with (JS.or_else (Some a) "No answer returned.").
    split; [apply or_else_truthy; reflexivity|].
    split; [apply playAnswerAudio_flags|apply playAnswerAudio_last].
Qed.

(** The model answers with white space only: the server trims it to nothing
    and the client shows its placeholder. *)
Lemma X18_witness :
  JS.truthy (JS.trim "range?") = true /\
  JS.truthy
    (botText (handleQuestionViaFetch_resume
                (Http.query_outcome
                   (Http.query (Some "range?") (Some (Http.Resp (Some "  ") None))))
                (run (init true true) [MicClick]))) = true /\
  botText (handleQuestionViaFetch_resume
             (Http.query_outcome
                (Http.query (Some "range?") (Some (Http.Resp (Some "  ") None))))
             (run (init true true) [MicClick]))
  = "No answer returned.".
Proof.
  split; [reflexivity|]. split; [|vm_compute; reflexivity].
  exact (proj1 (proj2 (X18_query_fallback_end_to_end "range?"
                         (Some (Http.Resp (Some "  ") None))
                         (run (init true true) [MicClick]) eq_refl))).
Defined.

(** X19: the synthesis over [/speak], end to end.  The server refuses a text
    exactly when it is blank.  The client plays the server's audio only when
    the text is not blank and the speech model returned audio; in every other
    case (a blank text, no client configured, no audio in the response, a
    failure) it runs the local fallback with the text it was given. *)
Theorem X19_speak_fallback_end_to_end
    (txt : string) (ai : option Http.Synthesized) (plays : bool) (s : State) :
  let r := Http.speak (Some txt) ai in
  (r = Http.Status400 <-> JS.truthy (JS.trim txt) = false) /\
  playAnswerAudio_resume txt (Http.speak_outcome r plays) s
  = match JS.truthy (JS.trim txt), ai with
    | true, Some Http.Audio =>
        if plays then emit AudioPlay (set_audio true s)
        else fallbackSpeak txt onAISpeechEnd (emit AudioPlay (set_audio true s))
    | _, _ => fallbackSpeak txt onAISpeechEnd s
    end.
Proof.
  intros r. subst r. unfold Http.speak. rewrite or_else_Some_empty.
  destruct (JS.truthy (JS.trim txt)) eqn:Hq; cbv beta iota delta [negb andb].
  - destruct ai as [[| |]|], plays; (split; [split; discriminate|reflexivity]).
  - split; [split; reflexivity|reflexivity].
Qed.

(** A text of one no-break space is refused, and the client falls back to
    the local synthesis with the text it was given. *)
Lemma X19_witness :
  Http.speak (Some JS.nbsp) (Some Http.Audio) = Http.Status400 /\
  playAnswerAudio_resume JS.nbsp
    (Http.speak_outcome (Http.speak (Some JS.nbsp) (Some Http.Audio)) true)
    (init true true)
  = fallbackSpeak JS.nbsp onAISpeechEnd (init true true).
Proof.
  split.
  - exact (proj2 (proj1 (X19_speak_fallback_end_to_end JS.nbsp (Some Http.Audio) true
                           (init true true))) eq_refl).
  - exact (proj2 (X19_speak_fallback_end_to_end JS.nbsp (Some Http.Audio) true
                    (init true true))).
Defined.
